(** * TagPicker: a shallow embedding of [src/tag/TagPicker.vue]

    The script part of the component is translated function by function.
    JavaScript values that may flow through the selection are a small sum
    type, property reads that can raise [TypeError] live in the [Res]
    monad, the object that [convertData] uses as a dictionary keeps its
    own-property order, and what a handler does to the outside world
    (emitting [update:modelValue], writing the clipboard, calling the tag
    API) is returned as a list of effects next to the new reactive state. *)

From Stdlib Require Import List Bool Arith NArith ZArith Lia.
From Stdlib Require Import Ascii String.
From Stdlib Require Import Permutation Sorted.
Import ListNotations.

Local Open Scope string_scope.
Local Open Scope list_scope.

(** ** JavaScript strings (as UTF-8 byte strings) *)

Module JsString.

Definition lower_ascii (c : ascii) : ascii :=
  let n := nat_of_ascii c in
  if (65 <=? n)%nat && (n <=? 90)%nat then ascii_of_nat (n + 32) else c.

(** The cased letters and the case-ignorable characters of ASCII
    (apostrophe, full stop, colon, circumflex, grave accent). *)
Definition cased_ascii (c : ascii) : bool :=
  let n := nat_of_ascii c in
  ((65 <=? n)%nat && (n <=? 90)%nat) || ((97 <=? n)%nat && (n <=? 122)%nat).

Definition case_ignorable_ascii (c : ascii) : bool :=
  let n := nat_of_ascii c in
  (n =? 39)%nat || (n =? 46)%nat || (n =? 58)%nat || (n =? 94)%nat
  || (n =? 96)%nat.

(** The Greek sigmas in UTF-8: capital CE A3, small CF 83, final small
    CF 82.  All three are cased letters. *)
Definition is_capital_sigma (c d : ascii) : bool :=
  (nat_of_ascii c =? 206)%nat && (nat_of_ascii d =? 163)%nat.

Definition is_small_sigma (c d : ascii) : bool :=
  (nat_of_ascii c =? 207)%nat
  && ((nat_of_ascii d =? 131)%nat || (nat_of_ascii d =? 130)%nat).

Definition small_sigma : string :=
  String (ascii_of_nat 207) (String (ascii_of_nat 131) EmptyString).
Definition final_sigma : string :=
  String (ascii_of_nat 207) (String (ascii_of_nat 130) EmptyString).

Definition starts_with_sigma (s : string) : bool :=
  match s with
  | String c (String d _) => is_capital_sigma c d || is_small_sigma c d
  | _ => false
  end.

(** The text ahead is any number of case-ignorable characters and then a
    cased letter. *)
Fixpoint cased_ahead (s : string) : bool :=
  match s with
  | EmptyString => false
  | String c s' =>
      if cased_ascii c then true
      else if case_ignorable_ascii c then cased_ahead s'
      else starts_with_sigma s
  end.

(** Whether the text read so far ends in a cased letter and then any number
    of case-ignorable characters, after one more character [c]. *)
Definition follows (c : ascii) (after_cased : bool) : bool :=
  if cased_ascii c then true
  else if case_ignorable_ascii c then after_cased
  else false.

(** [String.prototype.toLowerCase] on text made of ASCII characters and
    Greek sigmas: A-Z become a-z; a capital sigma becomes the final small
    sigma when it comes after a cased letter (and any case-ignorable
    characters) and not before (any case-ignorable characters and) a cased
    letter, and the small sigma otherwise.  The case mappings of the rest
    of Unicode are not modelled: bytes of other characters are left as
    they are. *)
Fixpoint lower_from (after_cased : bool) (s : string) : string :=
  match s with
  | EmptyString => EmptyString
  | String c s' =>
      match s' with
      | String d s'' =>
          if is_capital_sigma c d then
            ((if after_cased && negb (cased_ahead s'')
              then final_sigma else small_sigma)
             ++ lower_from true s'')%string
          else if is_small_sigma c d then
            String c (String d (lower_from true s''))
          else String (lower_ascii c) (lower_from (follows c after_cased) s')
      | EmptyString => String (lower_ascii c) EmptyString
      end
  end.

Definition toLowerCase (s : string) : string := lower_from false s.

(** [s.includes(sub)]: [sub] occurs in [s] at some position. *)
Fixpoint includes (s sub : string) : bool :=
  String.prefix sub s ||
  match s with
  | EmptyString => false
  | String _ s' => includes s' sub
  end.

(** [s.indexOf(sub)], with [-1] when [sub] does not occur. *)
Definition indexOf (s sub : string) : Z :=
  match String.index 0 sub s with
  | Some i => Z.of_nat i
  | None => (-1)%Z
  end.

(** [s.split(sep)] for a one-character separator. *)
Fixpoint split (sep : ascii) (s : string) : list string :=
  match s with
  | EmptyString => [EmptyString]
  | String c s' =>
      if Ascii.eqb c sep then EmptyString :: split sep s'
      else match split sep s' with
           | h :: t => String c h :: t
           | [] => [String c EmptyString]
           end
  end.

(** [parts.join(sep)]. *)
Fixpoint join (sep : string) (parts : list string) : string :=
  match parts with
  | [] => EmptyString
  | [x] => x
  | x :: rest => (x ++ sep ++ join sep rest)%string
  end.

End JsString.

(** ** Exceptions *)

Inductive Res (A : Type) : Type :=
| Ok (a : A)
| TypeError.

Arguments Ok {A} a.
Arguments TypeError {A}.

Definition bind {A B : Type} (m : Res A) (k : A -> Res B) : Res B :=
  match m with
  | Ok a => k a
  | TypeError => TypeError
  end.

Notation "x <- m ;; k" := (bind m (fun x => k))
  (at level 61, m at next level, right associativity).

(** [Array.prototype.filter] and [Array.prototype.some] with a callback that
    may throw: elements are visited in order, [some] stops at the first
    element the callback accepts. *)
Fixpoint filterM {A : Type} (p : A -> Res bool) (l : list A) : Res (list A) :=
  match l with
  | [] => Ok []
  | x :: l' =>
      b <- p x ;;
      rest <- filterM p l' ;;
      Ok (if b then x :: rest else rest)
  end.

Fixpoint someM {A : Type} (p : A -> Res bool) (l : list A) : Res bool :=
  match l with
  | [] => Ok false
  | x :: l' => b <- p x ;; if b then Ok true else someM p l'
  end.

Fixpoint mapM {A B : Type} (f : A -> Res B) (l : list A) : Res (list B) :=
  match l with
  | [] => Ok []
  | x :: l' => y <- f x ;; rest <- mapM f l' ;; Ok (y :: rest)
  end.

(** ** Objects used as dictionaries

    Own properties in creation order.  Keys are the non-negative integer
    ids of the API; [ToString] is injective on them, so the number stands
    for the property key. *)

Module JsObject.

Definition t (V : Type) := list (N * V).

(** [Object.create(null)]: no own and no inherited properties. *)
Definition create_null {V : Type} : t V := [].

Fixpoint get {V : Type} (k : N) (o : t V) : option V :=
  match o with
  | [] => None
  | (k', v) :: o' => if N.eqb k k' then Some v else get k o'
  end.

(** [o[k] = v]: an existing property keeps its place, a new one is
    created last. *)
Fixpoint set {V : Type} (k : N) (v : V) (o : t V) : t V :=
  match o with
  | [] => [(k, v)]
  | (k', v') :: o' =>
      if N.eqb k k' then (k, v) :: o' else (k', v') :: set k v o'
  end.

(** A key is an array index when it is an integer below [2^32 - 1]. *)
Definition is_array_index (k : N) : bool := (k <? 4294967295)%N.

Fixpoint insert_asc (k : N) (l : list N) : list N :=
  match l with
  | [] => [k]
  | x :: l' => if (k <=? x)%N then k :: l else x :: insert_asc k l'
  end.

Fixpoint sort_asc (l : list N) : list N :=
  match l with
  | [] => []
  | x :: l' => insert_asc x (sort_asc l')
  end.

Definition created_keys {V : Type} (o : t V) : list N := map fst o.

(** [Object.keys(o)]: array indices in ascending numeric order, then the
    other keys in creation order. *)
Definition keys {V : Type} (o : t V) : list N :=
  sort_asc (filter is_array_index (created_keys o))
    ++ filter (fun k => negb (is_array_index k)) (created_keys o).

End JsObject.

(** ** Data model *)

Module TagType.
Record t : Type := mk {
  id : N;
  name : string;
  description : string;
  icon : option string;
  color : string;
  exclusive : bool;
}.
End TagType.

Module Tag.
Record t : Type := mk {
  id : N;
  name : string;
  color : string;
  tag_type : TagType.t;
}.
End Tag.

Module Group.
Record t : Type := mk {
  id : N;
  icon : option string;
  label : string;
  desc : string;
  color : string;
  isExclusive : bool;
  menuItems : list Tag.t;
}.
End Group.

(** What an entry of the selection array can be at run time. *)
Inductive JsValue : Type :=
| JsUndefined
| JsNull
| JsBoolean (b : bool)
| JsNumber (n : Z)
| JsStr (s : string)
| JsTag (t : Tag.t).

Definition typeof (v : JsValue) : string :=
  match v with
  | JsUndefined => "undefined"
  | JsNull => "object"
  | JsBoolean _ => "boolean"
  | JsNumber _ => "number"
  | JsStr _ => "string"
  | JsTag _ => "object"
  end.

(** [v.id]: [None] is [undefined]; reading a property of [null] or
    [undefined] throws. *)
Definition prop_id (v : JsValue) : Res (option N) :=
  match v with
  | JsTag t => Ok (Some (Tag.id t))
  | JsUndefined | JsNull => TypeError
  | JsBoolean _ | JsNumber _ | JsStr _ => Ok None
  end.

(** [v.tag_type]. *)
Definition prop_tag_type (v : JsValue) : Res (option TagType.t) :=
  match v with
  | JsTag t => Ok (Some (Tag.tag_type t))
  | JsUndefined | JsNull => TypeError
  | JsBoolean _ | JsNumber _ | JsStr _ => Ok None
  end.

(** [v.name]. *)
Definition prop_name (v : JsValue) : Res (option string) :=
  match v with
  | JsTag t => Ok (Some (Tag.name t))
  | JsUndefined | JsNull => TypeError
  | JsBoolean _ | JsNumber _ | JsStr _ => Ok None
  end.

(** [v.tag_type.id] and [v.tag_type.name]: the second read throws when
    the first gave [undefined]. *)
Definition prop_tag_type_id (v : JsValue) : Res N :=
  tt <- prop_tag_type v ;;
  match tt with
  | Some ty => Ok (TagType.id ty)
  | None => TypeError
  end.

Definition prop_tag_type_name (v : JsValue) : Res string :=
  tt <- prop_tag_type v ;;
  match tt with
  | Some ty => Ok (TagType.name ty)
  | None => TypeError
  end.

(** Template-literal conversion of [undefined] and of a string. *)
Definition string_of_name (n : option string) : string :=
  match n with
  | Some s => s
  | None => "undefined"
  end.

(** ** The checkbox binding of the template

    [<input type="checkbox" v-model="selectedItems" :value="item">] is the
    array form of the framework's checkbox binding: the box is drawn
    checked when the bound array holds a value loosely equal to [item], and
    a change of the box assigns a new array to the bound expression. *)

Module Vue.

(** [String(x)] on a nullable string field. *)
Definition String_of_nullable (x : option string) : string :=
  match x with
  | Some s => s
  | None => "null"
  end.

(** [looseEqual] on two objects of the same shape compares them key by
    key; primitives are compared by [===] and then by their [String]
    conversion. *)
Definition looseEqual_tag_type (a b : TagType.t) : bool :=
  N.eqb (TagType.id a) (TagType.id b)
  && String.eqb (TagType.name a) (TagType.name b)
  && String.eqb (TagType.description a) (TagType.description b)
  && String.eqb (String_of_nullable (TagType.icon a))
                (String_of_nullable (TagType.icon b))
  && String.eqb (TagType.color a) (TagType.color b)
  && Bool.eqb (TagType.exclusive a) (TagType.exclusive b).

Definition looseEqual_tag (a b : Tag.t) : bool :=
  N.eqb (Tag.id a) (Tag.id b)
  && String.eqb (Tag.name a) (Tag.name b)
  && String.eqb (Tag.color a) (Tag.color b)
  && looseEqual_tag_type (Tag.tag_type a) (Tag.tag_type b).

(** The right operand is always a menu item, an object: a primitive,
    [null] or [undefined] on the left is never loosely equal to it. *)
Definition looseEqual (a : JsValue) (b : Tag.t) : bool :=
  match a with
  | JsTag t => looseEqual_tag t b
  | _ => false
  end.

(** [looseIndexOf(arr, val)]; [None] is [-1]. *)
Fixpoint looseIndexOf (arr : list JsValue) (val : Tag.t) : option nat :=
  match arr with
  | [] => None
  | x :: arr' =>
      if looseEqual x val then Some 0%nat
      else option_map S (looseIndexOf arr' val)
  end.

(** [filtered.splice(index, 1)] on a copy of the array. *)
Fixpoint splice1 {A : Type} (index : nat) (l : list A) : list A :=
  match l, index with
  | [], _ => []
  | _ :: l', O => l'
  | x :: l', S i => x :: splice1 i l'
  end.

(** The change listener of the binding: the value it assigns, if any. *)
Definition checkbox_change (modelValue : list JsValue)
    (elementValue : Tag.t) (checked : bool) : option (list JsValue) :=
  match looseIndexOf modelValue elementValue with
  | None => if checked then Some (modelValue ++ [JsTag elementValue]) else None
  | Some index => if checked then None else Some (splice1 index modelValue)
  end.

(** How the box is drawn for the current array. *)
Definition checkbox_checked (modelValue : list JsValue)
    (elementValue : Tag.t) : bool :=
  match looseIndexOf modelValue elementValue with
  | Some _ => true
  | None => false
  end.

End Vue.

(** ** The component *)

Module Project.
Record t : Type := mk { id : N; name : string }.
End Project.

Module Filter.
Record t : Type := mk {
  model : string;
  field : string;
  op : string;
  value : string;
}.
End Filter.

Module TagPicker.

Definition ALL_DISCOVERABILITY_TYPES : list Filter.t :=
  [ Filter.mk "TagType" "discoverable_incident" "==" "true";
    Filter.mk "TagType" "discoverable_case" "==" "true";
    Filter.mk "TagType" "discoverable_signal" "==" "true";
    Filter.mk "TagType" "discoverable_query" "==" "true";
    Filter.mk "TagType" "discoverable_source" "==" "true" ].

(** The [project] prop: [null], one project, or an array of projects. *)
Inductive ProjectProp : Type :=
| ProjectNull
| ProjectObject (p : Project.t)
| ProjectArray (ps : list Project.t).

Record Props : Type := mkProps {
  modelValue : list JsValue;
  project : ProjectProp;
  model : option string;
  modelId : option Z;
}.

(** The refs of the script. *)
Record State : Type := mkState {
  menu : bool;
  dummyText : string;
  items : list Tag.t;
  total : N;
  more : bool;
  groups : list Group.t;
  searchQuery : string;
  filteredMenuItems : list Tag.t;
  isDropdownOpen : bool;
  loading : bool;
  snackbar : bool;
}.

Definition initial : State :=
  mkState false " " [] 0 false [] "" [] false true false.

Definition with_menu (b : bool) (s : State) : State :=
  mkState b (dummyText s) (items s) (total s) (more s) (groups s)
    (searchQuery s) (filteredMenuItems s) (isDropdownOpen s) (loading s)
    (snackbar s).

Definition with_response (its : list Tag.t) (n : N) (m : bool)
    (gs : list Group.t) (s : State) : State :=
  mkState (menu s) (dummyText s) its n m gs
    (searchQuery s) (filteredMenuItems s) (isDropdownOpen s) false
    (snackbar s).

Definition with_searchQuery (q : string) (s : State) : State :=
  mkState (menu s) (dummyText s) (items s) (total s) (more s) (groups s)
    q (filteredMenuItems s) (isDropdownOpen s) (loading s) (snackbar s).

Definition with_filteredMenuItems (l : list Tag.t) (s : State) : State :=
  mkState (menu s) (dummyText s) (items s) (total s) (more s) (groups s)
    (searchQuery s) l (isDropdownOpen s) (loading s) (snackbar s).

Definition with_isDropdownOpen (b : bool) (s : State) : State :=
  mkState (menu s) (dummyText s) (items s) (total s) (more s) (groups s)
    (searchQuery s) (filteredMenuItems s) b (loading s) (snackbar s).

Definition with_loading (b : bool) (s : State) : State :=
  mkState (menu s) (dummyText s) (items s) (total s) (more s) (groups s)
    (searchQuery s) (filteredMenuItems s) (isDropdownOpen s) b (snackbar s).

Definition with_snackbar (b : bool) (s : State) : State :=
  mkState (menu s) (dummyText s) (items s) (total s) (more s) (groups s)
    (searchQuery s) (filteredMenuItems s) (isDropdownOpen s) (loading s) b.

(** The argument of [SearchUtils.createParametersFromTableOptions]. *)
Record Filters : Type := mkFilters {
  f_project : option (list Project.t);
  tagFilter : list Filter.t;
  tagTypeFilter : list Filter.t;
}.

Record TableOptions : Type := mkOptions {
  q : option string;
  itemsPerPage : N;
  sortBy : list string;
  descending : list bool;
  filters : Filters;
}.

(** What a handler asks of the outside: [emit("update:modelValue", tags)],
    [navigator.clipboard.writeText(text)], and [TagApi.getAll] on the
    parameters that [SearchUtils.createParametersFromTableOptions] makes of
    [options]. *)
Inductive Effect : Type :=
| Emit_update_modelValue (tags : list JsValue)
| Clipboard_writeText (text : string)
| TagApi_getAll (options : TableOptions).

(** Truthiness of a nullable string. *)
Definition truthy (s : option string) : bool :=
  match s with
  | Some x => negb (String.eqb x "")
  | None => false
  end.

(** *** fetchData *)

Definition project_filter (p : ProjectProp) : option (list Project.t) :=
  match p with
  | ProjectNull => None
  | ProjectArray ps => if (0 <? List.length ps)%nat then Some ps else None
  | ProjectObject x => Some [x]
  end.

Definition discoverable_for (m : string) : Filter.t :=
  Filter.mk "TagType" ("discoverable_" ++ m)%string "==" "true".

(** The body of [fetchData] below the literal that initialises
    [filterOptions]; [q0] is the value of [filterOptions.q] there. *)
Definition fetchData_options (q0 : option string) (props : Props)
    : TableOptions :=
  let request query type_filter :=
    mkOptions query 100 ["tag_type.name"] [false]
      (mkFilters (project_filter (project props))
         [Filter.mk "Tag" "discoverable" "==" "true"] type_filter) in
  let without_type_name :=
    match model props with
    | Some m => if truthy (model props)
                then request q0 [discoverable_for m]
                else request q0 ALL_DISCOVERABILITY_TYPES
    | None => request q0 ALL_DISCOVERABILITY_TYPES
    end in
  match q0 with
  | Some text =>
      if truthy q0 && negb (Z.eqb (JsString.indexOf text "/") (-1)) then
        let parts := JsString.split "/"%char text in
        let tagType := hd EmptyString parts in
        let query := nth_error parts 1 in
        let by_name := Filter.mk "TagType" "name" "==" tagType in
        match model props with
        | Some m => if truthy (model props)
                    then request query [by_name; discoverable_for m]
                    else request query (by_name :: ALL_DISCOVERABILITY_TYPES)
        | None => request query (by_name :: ALL_DISCOVERABILITY_TYPES)
        end
      else without_type_name
  | None => without_type_name
  end.

(** [fetchData]: [filterOptions.q] starts as [null]; the request goes
    out and [loading] stays set until the response arrives. *)
Definition fetchData (props : Props) (s : State) : State * list Effect :=
  (with_loading true s, [TagApi_getAll (fetchData_options None props)]).

(** *** convertData *)

Definition new_group (a : Tag.t) : Group.t :=
  let ty := Tag.tag_type a in
  Group.mk (TagType.id ty) (TagType.icon ty) (TagType.name ty)
    (TagType.description ty) (TagType.color ty) (TagType.exclusive ty) [].

Definition push_item (a : Tag.t) (g : Group.t) : Group.t :=
  Group.mk (Group.id g) (Group.icon g) (Group.label g) (Group.desc g)
    (Group.color g) (Group.isExclusive g) (Group.menuItems g ++ [a]).

(** The callback of [data.reduce]. *)
Definition reduce_step (r : JsObject.t Group.t) (a : Tag.t)
    : JsObject.t Group.t :=
  let k := TagType.id (Tag.tag_type a) in
  let r1 :=
    match JsObject.get k r with
    | None => JsObject.set k (new_group a) r
    | Some _ => r
    end in
  match JsObject.get k r1 with
  | Some g => JsObject.set k (push_item a g) r1
  | None => r1
  end.

(** [Object.keys(o).map(key => o[key])]. *)
Definition values_by_key {V : Type} (o : JsObject.t V) : list V :=
  flat_map (fun key => match JsObject.get key o with
                       | Some v => [v]
                       | None => []
                       end) (JsObject.keys o).

Definition convertData (data : list Tag.t) : list Group.t :=
  let groupedObject := fold_left reduce_step data JsObject.create_null in
  values_by_key groupedObject.

(** The [then] callback of the request. *)
Definition on_response (response_items : list Tag.t) (response_total : N)
    (s : State) : State :=
  with_response response_items response_total
    (N.of_nat (List.length response_items) <? response_total)%N
    (convertData response_items) s.

(** *** selectedItems *)

(** The getter returns a deep copy of the prop. *)
Definition selectedItems_get (props : Props) : list JsValue :=
  modelValue props.

Definition selectedItems_set (value : list JsValue) : list Effect :=
  let tags :=
    filter (fun v => if String.eqb (typeof v) "string" then false else true)
      value in
  [Emit_update_modelValue tags].

(** A click on the enabled checkbox of [item] flips the box as it is drawn
    and runs the change listener, which assigns through the setter.  The
    [disabled] attribute of the box is taken into account by [menu_click]
    below. *)
Definition checkbox_click (props : Props) (item : Tag.t) : list Effect :=
  let current := selectedItems_get props in
  let checked := negb (Vue.checkbox_checked current item) in
  match Vue.checkbox_change current item checked with
  | Some value => selectedItems_set value
  | None => []
  end.

Definition removeItem (props : Props) (index : N) : Res (list Effect) :=
  kept <- filterM (fun item =>
                     i <- prop_id item ;;
                     Ok (match i with
                         | Some n => negb (N.eqb n index)
                         | None => true
                         end))
                  (selectedItems_get props) ;;
  Ok (selectedItems_set kept).

(** *** copyTags *)

Definition copyTags (props : Props) (s : State)
    : Res (State * list Effect) :=
  tags <- mapM (fun item =>
                  type_name <- prop_tag_type_name item ;;
                  n <- prop_name item ;;
                  Ok (type_name ++ "/" ++ string_of_name n)%string)
               (selectedItems_get props) ;;
  Ok (with_snackbar true s,
      [Clipboard_writeText (JsString.join ", " tags)]).

(** *** Menu *)

Definition closeMenu (s : State) : State := with_menu false s.
Definition toggleMenu (s : State) : State := with_menu (negb (menu s)) s.
Definition showDropdown (state : bool) (s : State) : State :=
  with_isDropdownOpen state s.

(** *** performSearch *)

(** The callback of [group.menuItems.filter]; it reads the query that is
    current when it runs. *)
Definition name_includes (query : string) (item : Tag.t) : bool :=
  JsString.includes (JsString.toLowerCase (Tag.name item))
    (JsString.toLowerCase query).

Definition performSearch (s : State) : State :=
  fold_left
    (fun acc group =>
       let filteredItems :=
         filter (name_includes (searchQuery acc)) (Group.menuItems group) in
       with_filteredMenuItems (filteredMenuItems acc ++ filteredItems) acc)
    (groups s)
    (with_filteredMenuItems [] s).

(** The search field: the binding stores the text, then the
    [update:model-value] listener runs. *)
Definition search_input (text : string) (s : State) : State :=
  performSearch (with_searchQuery text s).

(** *** isItemDisabled and the [disabled] attribute *)

Definition isItemDisabled (props : Props) (group : Group.t) (item : Tag.t)
    : Res bool :=
  isItemSelectedInGroup <-
    someM (fun selectedItem =>
             i <- prop_tag_type_id selectedItem ;;
             Ok (N.eqb i (Group.id group)))
          (selectedItems_get props) ;;
  if isItemSelectedInGroup then
    same <- someM (fun selectedItem =>
                     i <- prop_id selectedItem ;;
                     Ok (match i with
                         | Some n => N.eqb n (Tag.id item)
                         | None => false
                         end))
                  (selectedItems_get props) ;;
    Ok (negb same)
  else Ok false.

(** [:disabled="group.isExclusive && isItemDisabled(group, item)"]. *)
Definition checkbox_disabled (props : Props) (group : Group.t)
    (item : Tag.t) : Res bool :=
  if Group.isExclusive group then isItemDisabled props group item
  else Ok false.

(** A click of the user on the checkbox of [item] in the menu of [group].
    The browser delivers no event from a disabled input, so a click on a
    disabled box does nothing; on an enabled box it is [checkbox_click]. *)
Definition menu_click (props : Props) (group : Group.t) (item : Tag.t)
    : Res (list Effect) :=
  disabled <- checkbox_disabled props group item ;;
  Ok (if disabled then [] else checkbox_click props item).

(** *** What the template shows *)

(** Arrays of tags are searched by identity.  Two fetched tags are two
    objects; here tags are told apart by their fields.  This agrees with
    identity in the state a search leaves, where the filtered list holds the
    very menu items of the groups (two items equal field by field have the
    same name and are kept or dropped together); it does not describe a
    filtered list left over from before a re-fetch. *)
Definition tag_eq_dec (a b : Tag.t) : {a = b} + {a <> b}.
Proof.
  repeat decide equality; try apply N.eq_dec; try apply string_dec;
    try apply bool_dec.
Defined.

(** [arr.includes(item)]. *)
Definition includes_tag (arr : list Tag.t) (item : Tag.t) : bool :=
  existsb (fun x => if tag_eq_dec x item then true else false) arr.

(** [v-if="!filteredMenuItems.length && searchQuery.length"] on the
    message that nothing was found. *)
Definition empty_search_shown (s : State) : bool :=
  Nat.eqb (List.length (filteredMenuItems s)) 0
  && negb (Nat.eqb (String.length (searchQuery s)) 0).

(** The [v-if] of a group:
    [!searchQuery.length || filteredMenuItems.some(f => group.menuItems.includes(f))]. *)
Definition group_shown (s : State) (group : Group.t) : bool :=
  Nat.eqb (String.length (searchQuery s)) 0
  || existsb (fun filteredItem =>
                includes_tag (Group.menuItems group) filteredItem)
       (filteredMenuItems s).

(** The [v-if] of a menu item:
    [!filteredMenuItems.length || filteredMenuItems.includes(item)]. *)
Definition item_shown (s : State) (item : Tag.t) : bool :=
  Nat.eqb (List.length (filteredMenuItems s)) 0
  || includes_tag (filteredMenuItems s) item.

(** The [v-show] of the note "Only 1 tag allowed for this category":
    [group.isExclusive && selectedItems.some(item => item.tag_type.id === group.id)]. *)
Definition rule_desc_shown (props : Props) (group : Group.t) : Res bool :=
  if Group.isExclusive group then
    someM (fun item =>
             i <- prop_tag_type_id item ;;
             Ok (N.eqb i (Group.id group)))
          (selectedItems_get props)
  else Ok false.

End TagPicker.

(** ** Notions used to state the properties *)

Module Spec.

(** The ids of the tags of an emitted array. *)
Definition tag_ids (l : list JsValue) : list N :=
  flat_map (fun v => match v with
                     | JsTag t => [Tag.id t]
                     | _ => []
                     end) l.

(** [l'] is [l] with the string entries taken out. *)
Inductive without_strings : list JsValue -> list JsValue -> Prop :=
| ws_nil : without_strings [] []
| ws_drop s l l' :
    without_strings l l' -> without_strings (JsStr s :: l) l'
| ws_keep v l l' :
    (forall s, v <> JsStr s) ->
    without_strings l l' -> without_strings (v :: l) (v :: l').

(** A tag of the group is selected; the tag itself is selected. *)
Definition group_selected (sel : list Tag.t) (g : Group.t) : Prop :=
  exists s, In s sel /\ TagType.id (Tag.tag_type s) = Group.id g.

Definition id_selected (sel : list Tag.t) (item : Tag.t) : Prop :=
  exists s, In s sel /\ Tag.id s = Tag.id item.

(** The checkbox of [item] is drawn checked. *)
Definition present (item : Tag.t) (sel : list Tag.t) : Prop :=
  exists s, In s sel /\ Vue.looseEqual_tag s item = true.

(** ["{tag_type.name}/{name}"] joined by [", "]. *)
Definition clipboard_text (sel : list Tag.t) : string :=
  String.concat ", "
    (map (fun t => (TagType.name (Tag.tag_type t) ++ "/" ++ Tag.name t)%string)
         sel).

(** Letters compared without regard to case. *)
Definition is_upper (c : ascii) : Prop :=
  (65 <= nat_of_ascii c <= 90)%nat.

Definition same_letter (a b : ascii) : Prop :=
  a = b
  \/ (is_upper a /\ nat_of_ascii b = (nat_of_ascii a + 32)%nat)
  \/ (is_upper b /\ nat_of_ascii a = (nat_of_ascii b + 32)%nat).

Inductive same_text : string -> string -> Prop :=
| st_empty : same_text EmptyString EmptyString
| st_char a b s t :
    same_letter a b -> same_text s t -> same_text (String a s) (String b t).

(** Text made of ASCII characters only. *)
Fixpoint ascii_text (s : string) : Prop :=
  match s with
  | EmptyString => True
  | String c s' => (nat_of_ascii c < 128)%nat /\ ascii_text s'
  end.

(** Every menu item of the groups has an ASCII name. *)
Definition ascii_names (gs : list Group.t) : Prop :=
  forall g item,
    In g gs -> In item (Group.menuItems g) -> ascii_text (Tag.name item).

(** The letters A-Z of a text replaced by a-z, one character at a time. *)
Fixpoint lower_letters (s : string) : string :=
  match s with
  | EmptyString => EmptyString
  | String c s' => String (JsString.lower_ascii c) (lower_letters s')
  end.

(** [query] occurs in [name], case-insensitively. *)
Definition contains_ignoring_case (name query : string) : Prop :=
  exists pre mid post,
    name = (pre ++ mid ++ post)%string /\ same_text mid query.

(** The distinct elements of a list, each at its first occurrence. *)
Fixpoint first_seen (l : list N) : list N :=
  match l with
  | [] => []
  | k :: l' => k :: filter (fun x => negb (N.eqb x k)) (first_seen l')
  end.

(** The metadata of a group is that of a tag type. *)
Definition metadata_of (g : Group.t) (ty : TagType.t) : Prop :=
  Group.id g = TagType.id ty
  /\ Group.icon g = TagType.icon ty
  /\ Group.label g = TagType.name ty
  /\ Group.desc g = TagType.description ty
  /\ Group.color g = TagType.color ty
  /\ Group.isExclusive g = TagType.exclusive ty.

(** The tags of a fetched list that belong to one tag type, in fetch
    order. *)
Definition type_id (a : Tag.t) : N := TagType.id (Tag.tag_type a).

Definition tags_of_type (data : list Tag.t) (k : N) : list Tag.t :=
  filter (fun a => N.eqb (type_id a) k) data.

(** What the dictionary of [convertData] holds once the tags [seen] have
    been reduced into it. *)
Definition grouped (seen : list Tag.t) (r : JsObject.t Group.t) : Prop :=
  JsObject.created_keys r = first_seen (map type_id seen)
  /\ forall k g,
       JsObject.get k r = Some g ->
       Group.id g = k
       /\ Group.menuItems g = tags_of_type seen k
       /\ exists a rest,
            tags_of_type seen k = a :: rest
            /\ metadata_of g (Tag.tag_type a).

(** The host binds the selection with [v-model]: it stores the array that
    [update:modelValue] carries as the new [modelValue] prop. *)
Definition adopt (tags : list JsValue) (props : TagPicker.Props)
    : TagPicker.Props :=
  TagPicker.mkProps tags (TagPicker.project props) (TagPicker.model props)
    (TagPicker.modelId props).

(** How many selected tags belong to a tag type. *)
Definition selected_of_type (sel : list Tag.t) (k : N) : nat :=
  List.length (tags_of_type sel k).

(** An entry of the selection that is [null] or [undefined]. *)
Definition nullish (v : JsValue) : Prop := v = JsNull \/ v = JsUndefined.

(** An entry that is a tag object. *)
Definition is_tag (v : JsValue) : Prop := exists t, v = JsTag t.

(** An entry that is not a string. *)
Definition not_string (v : JsValue) : Prop := forall s, v <> JsStr s.

End Spec.

(** ** Sample data *)

Module Samples.

Definition priority : TagType.t :=
  TagType.mk 1 "priority" "How urgent" (Some "flag") "#d32f2f" true.
Definition severity : TagType.t :=
  TagType.mk 2 "severity" "How bad" None "#1976d2" false.

Definition P1 : Tag.t := Tag.mk 1 "P1" "#d32f2f" priority.
Definition P2 : Tag.t := Tag.mk 3 "P2" "#f57c00" priority.
Definition sev1 : Tag.t := Tag.mk 2 "sev1" "#1976d2" severity.

(** The tag with id 1 as the API returns it after a rename. *)
Definition P1_renamed : Tag.t := Tag.mk 1 "P1 (urgent)" "#d32f2f" priority.

(** A tag type whose name sorts before "priority" and whose id is
    larger. *)
Definition category : TagType.t :=
  TagType.mk 7 "category" "What kind" (Some "shape") "#388e3c" false.
Definition phishing : Tag.t := Tag.mk 4 "phishing" "#388e3c" category.

Definition Alpha : Tag.t := Tag.mk 10 "Alpha" "#000000" severity.
Definition Box : Tag.t := Tag.mk 11 "Box" "#000000" severity.
Definition Exit : Tag.t := Tag.mk 12 "Exit" "#000000" severity.

Definition priority_group : Group.t :=
  Group.mk 1 (Some "flag") "priority" "How urgent" "#d32f2f" true [P1; P2].
Definition severity_group : Group.t :=
  Group.mk 2 None "severity" "How bad" "#1976d2" false [sev1].
Definition letters_group : Group.t :=
  Group.mk 2 None "severity" "How bad" "#1976d2" false [Alpha; Box; Exit].

Definition alpha_box_group : Group.t :=
  Group.mk 2 None "severity" "How bad" "#1976d2" false [Alpha; Box].


Definition props_of (sel : list JsValue) : TagPicker.Props :=
  TagPicker.mkProps sel TagPicker.ProjectNull (Some "incident") None.

Definition state_of (gs : list Group.t) : TagPicker.State :=
  TagPicker.with_response (flat_map Group.menuItems gs) 0 false gs
    TagPicker.initial.

End Samples.

Import TagPicker.

(** * Properties *)

(** ** Reading properties of tags never throws *)

Section TagSelections.

Variable sel : list Tag.t.

Lemma someM_tags (f : Tag.t -> bool) (p : JsValue -> Res bool) :
  (forall t, p (JsTag t) = Ok (f t)) ->
  someM p (map JsTag sel) = Ok (existsb f sel).
Proof.
  intros Hp. induction sel as [|t l IH]; simpl; [reflexivity|].
  rewrite Hp. simpl. destruct (f t); [reflexivity|exact IH].
Qed.

Lemma filterM_tags (f : Tag.t -> bool) (p : JsValue -> Res bool) :
  (forall t, p (JsTag t) = Ok (f t)) ->
  filterM p (map JsTag sel) = Ok (map JsTag (filter f sel)).
Proof.
  intros Hp. induction sel as [|t l IH]; simpl; [reflexivity|].
  rewrite Hp. simpl. rewrite IH. simpl. destruct (f t); reflexivity.
Qed.

Lemma mapM_tags {B : Type} (f : Tag.t -> B) (p : JsValue -> Res B) :
  (forall t, p (JsTag t) = Ok (f t)) ->
  mapM p (map JsTag sel) = Ok (map f sel).
Proof.
  intros Hp. induction sel as [|t l IH]; simpl; [reflexivity|].
  rewrite Hp. simpl. rewrite IH. reflexivity.
Qed.

End TagSelections.

Lemma filter_strings_tags (sel : list Tag.t) :
  filter (fun v => if String.eqb (typeof v) "string" then false else true)
    (map JsTag sel) = map JsTag sel.
Proof.
  induction sel as [|t l IH]; simpl; [reflexivity|]. now rewrite IH.
Qed.

Lemma selectedItems_set_tags (sel : list Tag.t) :
  selectedItems_set (map JsTag sel) = [Emit_update_modelValue (map JsTag sel)].
Proof.
  unfold selectedItems_set. now rewrite filter_strings_tags.
Qed.

Lemma tag_ids_tags (sel : list Tag.t) :
  Spec.tag_ids (map JsTag sel) = map Tag.id sel.
Proof.
  induction sel as [|t l IH]; simpl; [reflexivity|]. now rewrite IH.
Qed.

(** ** The [disabled] attribute *)

Lemma isItemDisabled_tags (props : Props) (sel : list Tag.t)
    (group : Group.t) (item : Tag.t) :
  modelValue props = map JsTag sel ->
  isItemDisabled props group item =
    Ok (existsb (fun s => N.eqb (TagType.id (Tag.tag_type s)) (Group.id group)) sel
        && negb (existsb (fun s => N.eqb (Tag.id s) (Tag.id item)) sel)).
Proof.
  intros Hsel. unfold isItemDisabled, selectedItems_get. rewrite Hsel.
  rewrite (someM_tags sel
             (fun s => N.eqb (TagType.id (Tag.tag_type s)) (Group.id group)))
    by reflexivity.
  simpl.
  destruct (existsb _ sel); [|reflexivity].
  rewrite (someM_tags sel (fun s => N.eqb (Tag.id s) (Tag.id item)))
    by reflexivity.
  reflexivity.
Qed.

Lemma group_selected_existsb (sel : list Tag.t) (g : Group.t) :
  existsb (fun s => N.eqb (TagType.id (Tag.tag_type s)) (Group.id g)) sel = true
  <-> Spec.group_selected sel g.
Proof.
  unfold Spec.group_selected. rewrite existsb_exists.
  split; intros [s [Hin H]]; exists s; split; auto; now apply N.eqb_eq.
Qed.

Lemma id_selected_existsb (sel : list Tag.t) (item : Tag.t) :
  existsb (fun s => N.eqb (Tag.id s) (Tag.id item)) sel = true
  <-> Spec.id_selected sel item.
Proof.
  unfold Spec.id_selected. rewrite existsb_exists.
  split; intros [s [Hin H]]; exists s; split; auto; now apply N.eqb_eq.
Qed.

(** C2.  In an exclusive group the checkbox of a menu item is disabled
    exactly when some selected tag belongs to the group and no selected tag
    has the item's id.  In particular, once a tag of the group is selected,
    that tag stays enabled and every menu item whose id is not selected is
    disabled. *)
Theorem exclusive_group_disabled_iff
    (props : Props) (sel : list Tag.t) (G : Group.t) (T : Tag.t) :
  modelValue props = map JsTag sel ->
  Group.isExclusive G = true ->
  In T (Group.menuItems G) ->
  (exists b, checkbox_disabled props G T = Ok b
             /\ (b = true <->
                 Spec.group_selected sel G /\ ~ Spec.id_selected sel T))
  /\ (forall S, In S sel -> TagType.id (Tag.tag_type S) = Group.id G ->
        checkbox_disabled props G S = Ok false
        /\ (forall T', In T' (Group.menuItems G) ->
              (forall s, In s sel -> Tag.id s <> Tag.id T') ->
              checkbox_disabled props G T' = Ok true)).
Proof.
  intros Hsel Hex _. unfold checkbox_disabled. rewrite Hex. split.
  - rewrite (isItemDisabled_tags props sel G T Hsel).
    eexists; split; [reflexivity|].
    rewrite andb_true_iff, negb_true_iff, group_selected_existsb.
    rewrite <- id_selected_existsb. split; intros [H1 H2]; split; auto.
    + now rewrite H2.
    + now apply not_true_is_false.
  - intros S HS HG.
    assert (Hg : existsb (fun s => N.eqb (TagType.id (Tag.tag_type s))
                                     (Group.id G)) sel = true).
    { apply group_selected_existsb. now exists S. }
    split.
    + rewrite (isItemDisabled_tags props sel G S Hsel), Hg.
      assert (Hs : existsb (fun s => N.eqb (Tag.id s) (Tag.id S)) sel = true).
      { apply id_selected_existsb. now exists S. }
      now rewrite Hs.
    + intros T' _ Hother.
      rewrite (isItemDisabled_tags props sel G T' Hsel), Hg.
      assert (Hs : existsb (fun s => N.eqb (Tag.id s) (Tag.id T')) sel = false).
      { apply not_true_is_false. rewrite id_selected_existsb.
        intros [s [Hin Heq]]. exact (Hother s Hin Heq). }
      now rewrite Hs.
Qed.

Lemma exclusive_group_disabled_iff_witness :
  checkbox_disabled (Samples.props_of [JsTag Samples.P1])
    Samples.priority_group Samples.P1 = Ok false
  /\ checkbox_disabled (Samples.props_of [JsTag Samples.P1])
       Samples.priority_group Samples.P2 = Ok true.
Proof.
  destruct (exclusive_group_disabled_iff
              (Samples.props_of [JsTag Samples.P1]) [Samples.P1]
              Samples.priority_group Samples.P2) as [_ H].
  - reflexivity.
  - reflexivity.
  - simpl. right. left. reflexivity.
  - destruct (H Samples.P1) as [H1 H2].
    + simpl. left. reflexivity.
    + reflexivity.
    + split; [exact H1|].
      apply H2.
      * simpl. right. left. reflexivity.
      * intros s [<-|[]]. simpl. discriminate.
Defined.

(** C10.  A group that is not exclusive never disables a checkbox, whatever
    the selection holds: [isItemDisabled] is not evaluated, so even a
    selection on which it would throw leaves the attribute [false]. *)
Theorem nonexclusive_group_never_disabled
    (props : Props) (group : Group.t) (item : Tag.t) :
  Group.isExclusive group = false ->
  checkbox_disabled props group item = Ok false.
Proof.
  intros H. unfold checkbox_disabled. now rewrite H.
Qed.

Lemma nonexclusive_group_never_disabled_witness :
  isItemDisabled (Samples.props_of [JsNull]) Samples.severity_group
    Samples.sev1 = TypeError
  /\ checkbox_disabled (Samples.props_of [JsNull]) Samples.severity_group
       Samples.sev1 = Ok false.
Proof.
  split; [reflexivity|].
  apply (nonexclusive_group_never_disabled
           (Samples.props_of [JsNull]) Samples.severity_group Samples.sev1).
  reflexivity.
Defined.

(** ** The setter of [selectedItems] *)

Lemma typeof_string (v : JsValue) :
  String.eqb (typeof v) "string" = true <-> exists s, v = JsStr s.
Proof.
  destruct v; simpl; split; intros H; try discriminate; eauto;
    destruct H as [x H]; discriminate.
Qed.

Lemma filter_without_strings (value : list JsValue) :
  Spec.without_strings value
    (filter (fun v => if String.eqb (typeof v) "string" then false else true)
       value).
Proof.
  induction value as [|v l IH]; simpl; [constructor|].
  destruct (String.eqb (typeof v) "string") eqn:E.
  - apply typeof_string in E. destruct E as [s ->]. now constructor.
  - constructor; [|exact IH].
    intros s ->. simpl in E. discriminate.
Qed.

Lemma without_strings_facts (l l' : list JsValue) :
  Spec.without_strings l l' ->
  Forall (fun v => forall s, v <> JsStr s) l'
  /\ (forall v, In v l' <-> In v l /\ forall s, v <> JsStr s).
Proof.
  induction 1 as [|s l l' _ [IHF IHI]|v l l' Hv _ [IHF IHI]].
  - split; [constructor|]. intros v; simpl; tauto.
  - split; [exact IHF|]. intros v. rewrite IHI. simpl. split.
    + intros [H1 H2]; auto.
    + intros [[<-|H1] H2]; [now contradiction (H2 s)|auto].
  - split; [now constructor|]. intros w. simpl. rewrite IHI. split.
    + intros [<-|[H1 H2]]; auto.
    + intros [[<-|H1] H2]; auto.
Qed.

(** C8.  Whatever array is assigned to [selectedItems], the setter raises
    nothing and emits one [update:modelValue] whose payload is the array
    without its string entries: the other entries are kept as they are and
    in their order. *)
Theorem setter_drops_string_entries (value : list JsValue) :
  exists tags,
    selectedItems_set value = [Emit_update_modelValue tags]
    /\ Spec.without_strings value tags
    /\ Forall (fun v => forall s, v <> JsStr s) tags
    /\ (forall v, In v tags <-> In v value /\ forall s, v <> JsStr s).
Proof.
  eexists. split; [reflexivity|].
  pose proof (filter_without_strings value) as H.
  split; [exact H|]. exact (without_strings_facts _ _ H).
Qed.

(** ** copyTags *)

Lemma join_concat (sep : string) (l : list string) :
  JsString.join sep l = String.concat sep l.
Proof.
  induction l as [|x l IH]; [reflexivity|].
  destruct l as [|y l]; [reflexivity|].
  change (JsString.join sep (x :: y :: l))
    with (x ++ sep ++ JsString.join sep (y :: l))%string.
  now rewrite IH.
Qed.

Lemma copyTags_tags (props : Props) (sel : list Tag.t) (s : State) :
  modelValue props = map JsTag sel ->
  copyTags props s =
    Ok (with_snackbar true s, [Clipboard_writeText (Spec.clipboard_text sel)]).
Proof.
  intros Hsel. unfold copyTags, selectedItems_get. rewrite Hsel.
  rewrite (mapM_tags sel
             (fun t => (TagType.name (Tag.tag_type t) ++ "/" ++ Tag.name t)%string))
    by reflexivity.
  simpl. now rewrite join_concat.
Qed.

(** C9.  For every selection of tags the copy action writes
    ["{tag_type.name}/{name}"] of each selected tag, joined by [", "] in
    selection order, to the clipboard and raises the notification; for the
    selection P1 of priority, sev1 of severity the text is
    ["priority/P1, severity/sev1"]. *)
Theorem copyTags_writes_selection :
  (forall (sel : list Tag.t) project model modelId (s : State),
      exists s',
        copyTags (mkProps (map JsTag sel) project model modelId) s =
          Ok (s', [Clipboard_writeText (Spec.clipboard_text sel)])
        /\ snackbar s' = true)
  /\ (forall (s : State),
        copyTags (Samples.props_of [JsTag Samples.P1; JsTag Samples.sev1]) s =
          Ok (with_snackbar true s,
              [Clipboard_writeText "priority/P1, severity/sev1"])).
Proof.
  split.
  - intros sel project model modelId s. eexists. split.
    + now apply copyTags_tags.
    + reflexivity.
  - intros s. reflexivity.
Qed.

(** An entry that is not an object makes the property read throw: nothing
    is written and the notification stays off. *)
Lemma copyTags_string_entry_throws (s : State) :
  copyTags (Samples.props_of [JsTag Samples.P1; JsStr "sev1"]) s = TypeError.
Proof. reflexivity. Qed.

(** ** The checkbox binding on a selection of tags *)

Lemma looseEqual_tag_type_refl (a : TagType.t) :
  Vue.looseEqual_tag_type a a = true.
Proof.
  unfold Vue.looseEqual_tag_type.
  now rewrite N.eqb_refl, !String.eqb_refl, Bool.eqb_reflx.
Qed.

Lemma looseEqual_tag_refl (a : Tag.t) : Vue.looseEqual_tag a a = true.
Proof.
  unfold Vue.looseEqual_tag.
  now rewrite N.eqb_refl, !String.eqb_refl, looseEqual_tag_type_refl.
Qed.

Lemma looseEqual_tag_id (a b : Tag.t) :
  Vue.looseEqual_tag a b = true -> Tag.id a = Tag.id b.
Proof.
  unfold Vue.looseEqual_tag. rewrite !andb_true_iff.
  intros [[[H _] _] _]. now apply N.eqb_eq.
Qed.

Lemma present_of_In (item : Tag.t) (sel : list Tag.t) :
  In item sel -> Spec.present item sel.
Proof.
  intros H. exists item. split; [exact H|apply looseEqual_tag_refl].
Qed.

Lemma looseIndexOf_absent (sel : list Tag.t) (item : Tag.t) :
  Vue.looseIndexOf (map JsTag sel) item = None <-> ~ Spec.present item sel.
Proof.
  unfold Spec.present. induction sel as [|t l IH]; simpl.
  - split; [intros _ [s [[] _]]|reflexivity].
  - destruct (Vue.looseEqual_tag t item) eqn:E.
    + split; [discriminate|]. intros H. exfalso. apply H. exists t. auto.
    + destruct (Vue.looseIndexOf (map JsTag l) item) eqn:Ei; simpl.
      * split; [discriminate|]. intros H. exfalso.
        assert (Hn : ~ (exists s, In s l /\ Vue.looseEqual_tag s item = true)).
        { intros [s [Hin Hs]]. apply H. exists s. auto. }
        apply IH in Hn. discriminate.
      * split; [|reflexivity]. intros _ [s [[<-|Hin] Hs]].
        -- congruence.
        -- destruct IH as [IH _]. apply (IH eq_refl). exists s. auto.
Qed.

Lemma looseIndexOf_found (sel : list Tag.t) (item : Tag.t) (i : nat) :
  Vue.looseIndexOf (map JsTag sel) item = Some i ->
  exists pre s post,
    sel = pre ++ s :: post
    /\ Vue.looseEqual_tag s item = true
    /\ ~ Spec.present item pre
    /\ Vue.splice1 i (map JsTag sel) = map JsTag (pre ++ post).
Proof.
  revert i. induction sel as [|t l IH]; simpl; intros i H; [discriminate|].
  destruct (Vue.looseEqual_tag t item) eqn:E.
  - injection H as <-. exists [], t, l. repeat split; auto.
    intros [s [[] _]].
  - destruct (Vue.looseIndexOf (map JsTag l) item) as [j|] eqn:Ej;
      simpl in H; [|discriminate].
    injection H as <-.
    destruct (IH j eq_refl) as (pre & s & post & -> & Hs & Hpre & Hsp).
    exists (t :: pre), s, post. repeat split; auto.
    + intros [u [[<-|Hin] Hu]]; [congruence|]. apply Hpre. exists u. auto.
    + simpl. now rewrite Hsp.
Qed.

Lemma checkbox_click_absent (props : Props) (sel : list Tag.t) (item : Tag.t) :
  modelValue props = map JsTag sel ->
  ~ Spec.present item sel ->
  checkbox_click props item =
    [Emit_update_modelValue (map JsTag (sel ++ [item]))].
Proof.
  intros Hsel Habs. apply looseIndexOf_absent in Habs.
  unfold checkbox_click, Vue.checkbox_checked, Vue.checkbox_change,
    selectedItems_get.
  rewrite Hsel, Habs. simpl.
  change (map JsTag sel ++ [JsTag item]) with (map JsTag sel ++ map JsTag [item]).
  rewrite <- map_app. apply selectedItems_set_tags.
Qed.

Lemma checkbox_click_present (props : Props) (sel : list Tag.t) (item : Tag.t) :
  modelValue props = map JsTag sel ->
  Spec.present item sel ->
  exists pre s post,
    sel = pre ++ s :: post
    /\ Vue.looseEqual_tag s item = true
    /\ ~ Spec.present item pre
    /\ checkbox_click props item =
         [Emit_update_modelValue (map JsTag (pre ++ post))].
Proof.
  intros Hsel Hpres.
  destruct (Vue.looseIndexOf (map JsTag sel) item) as [i|] eqn:Ei.
  - destruct (looseIndexOf_found sel item i Ei)
      as (pre & s & post & Hdec & Hs & Hpre & Hsp).
    exists pre, s, post. repeat split; auto.
    unfold checkbox_click, Vue.checkbox_checked, Vue.checkbox_change,
      selectedItems_get.
    rewrite Hsel, Ei. simpl. rewrite Hsp. apply selectedItems_set_tags.
  - apply looseIndexOf_absent in Ei. contradiction.
Qed.

Lemma split_at_id (pre pre' post post' : list Tag.t) (x y : Tag.t) :
  NoDup (map Tag.id (pre ++ x :: post)) ->
  pre ++ x :: post = pre' ++ y :: post' ->
  Tag.id x = Tag.id y ->
  pre = pre' /\ x = y /\ post = post'.
Proof.
  revert pre'. induction pre as [|a pre IH]; intros [|z pre'] Hnd Heq Hid;
    simpl in *.
  - injection Heq as -> ->. auto.
  - injection Heq as -> ->. apply NoDup_cons_iff in Hnd. exfalso.
    apply (proj1 Hnd). rewrite Hid. apply in_map, in_or_app. right. now left.
  - injection Heq as -> <-. apply NoDup_cons_iff in Hnd. exfalso.
    apply (proj1 Hnd). rewrite <- Hid. apply in_map, in_or_app. right. now left.
  - injection Heq as -> Heq. apply NoDup_cons_iff in Hnd.
    destruct (IH pre' (proj2 Hnd) Heq Hid) as (-> & -> & ->). auto.
Qed.

(** With distinct ids, toggling a selected tag takes exactly that tag out
    of the selection. *)
Lemma checkbox_click_selected (props : Props) (pre post : list Tag.t)
    (item : Tag.t) :
  modelValue props = map JsTag (pre ++ item :: post) ->
  NoDup (map Tag.id (pre ++ item :: post)) ->
  checkbox_click props item =
    [Emit_update_modelValue (map JsTag (pre ++ post))].
Proof.
  intros Hsel Hnd.
  assert (Hp : Spec.present item (pre ++ item :: post)).
  { apply present_of_In, in_or_app. right. now left. }
  destruct (checkbox_click_present props _ item Hsel Hp)
    as (pre' & s & post' & Hdec & Hs & _ & Hclick).
  apply looseEqual_tag_id in Hs.
  destruct (split_at_id pre pre' post post' item s Hnd Hdec (eq_sym Hs))
    as (-> & _ & ->).
  exact Hclick.
Qed.

(** C5, as the code has it.  Toggling an item of the menu on a selection of
    tags removes it when it is present (its first occurrence is taken out)
    and appends it when it is absent; the resulting array is what
    [update:modelValue] carries. *)
Theorem toggle_removes_present_appends_absent
    (props : Props) (sel : list Tag.t) (item : Tag.t) :
  modelValue props = map JsTag sel ->
  (Spec.present item sel ->
     exists pre s post,
       sel = pre ++ s :: post
       /\ Vue.looseEqual_tag s item = true
       /\ ~ Spec.present item pre
       /\ checkbox_click props item =
            [Emit_update_modelValue (map JsTag (pre ++ post))])
  /\ (~ Spec.present item sel ->
        checkbox_click props item =
          [Emit_update_modelValue (map JsTag (sel ++ [item]))]).
Proof.
  intros Hsel. split.
  - now apply checkbox_click_present.
  - now apply checkbox_click_absent.
Qed.

Lemma toggle_removes_present_appends_absent_witness :
  checkbox_click (Samples.props_of [JsTag Samples.P1]) Samples.sev1 =
    [Emit_update_modelValue [JsTag Samples.P1; JsTag Samples.sev1]].
Proof.
  destruct (toggle_removes_present_appends_absent
              (Samples.props_of [JsTag Samples.P1]) [Samples.P1] Samples.sev1
              eq_refl) as [_ H].
  apply H. intros [s [[<-|[]] Hs]]. vm_compute in Hs. discriminate.
Defined.

(** C5 as stated fails: toggling the selected P1 does not append a second
    P1 but empties the selection, and toggling the absent sev1 appends it
    instead of leaving it out. *)
Lemma toggle_present_is_not_appended :
  In (JsTag Samples.P1) (modelValue (Samples.props_of [JsTag Samples.P1]))
  /\ checkbox_click (Samples.props_of [JsTag Samples.P1]) Samples.P1 =
       [Emit_update_modelValue []]
  /\ checkbox_click (Samples.props_of [JsTag Samples.P1]) Samples.P1 <>
       [Emit_update_modelValue [JsTag Samples.P1; JsTag Samples.P1]]
  /\ ~ In (JsTag Samples.sev1)
         (modelValue (Samples.props_of [JsTag Samples.P1]))
  /\ checkbox_click (Samples.props_of [JsTag Samples.P1]) Samples.sev1 =
       [Emit_update_modelValue [JsTag Samples.P1; JsTag Samples.sev1]].
Proof.
  repeat split.
  - simpl. auto.
  - vm_compute. discriminate.
  - simpl. intros [H|[]]. discriminate.
Qed.

(** ** removeItem *)

Lemma removeItem_tags (props : Props) (sel : list Tag.t) (index : N) :
  modelValue props = map JsTag sel ->
  removeItem props index =
    Ok [Emit_update_modelValue
          (map JsTag (filter (fun t => negb (N.eqb (Tag.id t) index)) sel))].
Proof.
  intros Hsel. unfold removeItem, selectedItems_get. rewrite Hsel.
  rewrite (filterM_tags sel (fun t => negb (N.eqb (Tag.id t) index)))
    by reflexivity.
  simpl. now rewrite selectedItems_set_tags.
Qed.

Lemma distinct_ids_filter (keep : Tag.t -> bool) (sel : list Tag.t) :
  NoDup (map Tag.id sel) -> NoDup (map Tag.id (filter keep sel)).
Proof.
  intros Hnd. induction sel as [|t sel IH]; simpl in *; [constructor|].
  apply NoDup_cons_iff in Hnd. destruct Hnd as [Hfresh Hnd].
  destruct (keep t); simpl; [|now apply IH].
  constructor; [|now apply IH].
  rewrite in_map_iff. intros (u & Hid & Hu). apply filter_In in Hu.
  apply Hfresh. rewrite in_map_iff. exists u. tauto.
Qed.

(** ** Distinct ids *)

(** C1, as the code has it.  From a selection of tags with pairwise
    distinct ids, removing any id emits an array with pairwise distinct
    ids, and so does toggling a menu item that is either present in the
    selection or whose id no selected tag has. *)
Theorem emitted_ids_stay_distinct (props : Props) (sel : list Tag.t) :
  modelValue props = map JsTag sel ->
  NoDup (map Tag.id sel) ->
  (forall item,
      Spec.present item sel \/ ~ In (Tag.id item) (map Tag.id sel) ->
      exists out,
        checkbox_click props item = [Emit_update_modelValue out]
        /\ NoDup (Spec.tag_ids out))
  /\ (forall index,
        exists out,
          removeItem props index = Ok [Emit_update_modelValue out]
          /\ NoDup (Spec.tag_ids out)).
Proof.
  intros Hsel Hnd. split.
  - intros item Hitem.
    assert (Hcases : Spec.present item sel
                     \/ (~ Spec.present item sel
                         /\ ~ In (Tag.id item) (map Tag.id sel))).
    { destruct (Vue.looseIndexOf (map JsTag sel) item) as [i|] eqn:Ei.
      - left. destruct (looseIndexOf_found sel item i Ei)
          as (pre & s & post & -> & Hs & _). exists s. split; [|exact Hs].
        apply in_or_app. right. now left.
      - apply looseIndexOf_absent in Ei. destruct Hitem; [now left|now right]. }
    destruct Hcases as [Hp|[Ha Hid]].
    + destruct (checkbox_click_present props sel item Hsel Hp)
        as (pre & s & post & -> & _ & _ & Hclick).
      eexists. split; [exact Hclick|]. rewrite tag_ids_tags.
      rewrite map_app in *. simpl in Hnd. now apply NoDup_remove_1 in Hnd.
    + eexists. split; [exact (checkbox_click_absent props sel item Hsel Ha)|].
      rewrite tag_ids_tags, map_app. simpl.
      apply NoDup_rev in Hnd. rewrite <- (rev_involutive (map Tag.id sel ++ _)).
      apply NoDup_rev. rewrite rev_app_distr. simpl. constructor; [|exact Hnd].
      now rewrite <- in_rev.
  - intros index. eexists. split; [exact (removeItem_tags props sel index Hsel)|].
    rewrite tag_ids_tags. now apply distinct_ids_filter.
Qed.

Lemma emitted_ids_stay_distinct_witness :
  (exists out,
      checkbox_click (Samples.props_of [JsTag Samples.P1]) Samples.sev1 =
        [Emit_update_modelValue out]
      /\ NoDup (Spec.tag_ids out))
  /\ (exists out,
        removeItem (Samples.props_of [JsTag Samples.P1]) 1 =
          Ok [Emit_update_modelValue out]
        /\ NoDup (Spec.tag_ids out)).
Proof.
  destruct (emitted_ids_stay_distinct
              (Samples.props_of [JsTag Samples.P1]) [Samples.P1] eq_refl)
    as [Htoggle Hremove].
  - simpl. constructor; [intros []|constructor].
  - split; [|apply Hremove].
    apply Htoggle. right. simpl. intros [H|[]]. discriminate.
Defined.

(** C1 as stated fails.  The selection holds P1; the menu lists the tag
    with the same id under its new name.  Its checkbox is drawn unchecked
    and is enabled, and clicking it emits two tags with id 1.  Removing an
    id from a selection that already holds a tag twice emits it twice. *)
Lemma toggle_can_emit_duplicate_id :
  NoDup (Spec.tag_ids (modelValue (Samples.props_of [JsTag Samples.P1])))
  /\ checkbox_disabled (Samples.props_of [JsTag Samples.P1])
       Samples.priority_group Samples.P1_renamed = Ok false
  /\ checkbox_click (Samples.props_of [JsTag Samples.P1]) Samples.P1_renamed =
       [Emit_update_modelValue [JsTag Samples.P1; JsTag Samples.P1_renamed]]
  /\ ~ NoDup (Spec.tag_ids [JsTag Samples.P1; JsTag Samples.P1_renamed])
  /\ removeItem (Samples.props_of [JsTag Samples.P1; JsTag Samples.P1]) 2 =
       Ok [Emit_update_modelValue [JsTag Samples.P1; JsTag Samples.P1]]
  /\ ~ NoDup (Spec.tag_ids [JsTag Samples.P1; JsTag Samples.P1]).
Proof.
  split; [|split; [|split; [|split; [|split]]]].
  - simpl. constructor; [intros []|constructor].
  - reflexivity.
  - reflexivity.
  - simpl. intros H. inversion H as [|x l Hnin _]; subst. apply Hnin. now left.
  - reflexivity.
  - simpl. intros H. inversion H as [|x l Hnin _]; subst. apply Hnin. now left.
Qed.

(** ** Strings *)

Lemma prefix_app (a s : string) :
  String.prefix a s = true <-> exists post, s = (a ++ post)%string.
Proof.
  revert s. induction a as [|c a IH]; intros s.
  - split; [intros _; now exists s|]. intros _. now destruct s.
  - destruct s as [|d s]; simpl.
    + split; [discriminate|]. intros [post H]. discriminate.
    + destruct (ascii_dec c d) as [->|Hne].
      * rewrite IH. split; intros [post H]; exists post; congruence.
      * split; [discriminate|]. intros [post H]. congruence.
Qed.

Lemma includes_app (s sub : string) :
  JsString.includes s sub = true
  <-> exists pre post, s = (pre ++ sub ++ post)%string.
Proof.
  induction s as [|c s IH].
  - cbn [JsString.includes]. rewrite orb_false_r, prefix_app. split.
    + intros [post H]. now exists EmptyString, post.
    + intros [pre [post H]]. destruct pre; [now exists post|discriminate].
  - cbn [JsString.includes]. rewrite orb_true_iff, prefix_app, IH. split.
    + intros [[post H]|[pre [post H]]].
      * now exists EmptyString, post.
      * exists (String c pre), post. simpl. now rewrite H.
    + intros [pre [post H]]. destruct pre as [|d pre].
      * left. now exists post.
      * right. exists pre, post. simpl in H. congruence.
Qed.

Lemma lower_letters_app (a b : string) :
  Spec.lower_letters (a ++ b) =
    (Spec.lower_letters a ++ Spec.lower_letters b)%string.
Proof.
  induction a as [|c a IH]; simpl; [reflexivity|]. now rewrite IH.
Qed.

Lemma lower_letters_split (s a b : string) :
  Spec.lower_letters s = (a ++ b)%string ->
  exists s1 s2,
    s = (s1 ++ s2)%string
    /\ Spec.lower_letters s1 = a /\ Spec.lower_letters s2 = b.
Proof.
  revert s. induction a as [|c a IH]; intros s H.
  - exists EmptyString, s. auto.
  - destruct s as [|d s]; [discriminate|]. simpl in H.
    injection H as Hc Hs. destruct (IH s Hs) as (s1 & s2 & -> & H1 & H2).
    exists (String d s1), s2. simpl. repeat split; congruence.
Qed.

Lemma lower_ascii_upper (c : ascii) :
  Spec.is_upper c ->
  JsString.lower_ascii c = ascii_of_nat (nat_of_ascii c + 32).
Proof.
  intros [H1 H2]. unfold JsString.lower_ascii.
  apply Nat.leb_le in H1, H2. now rewrite H1, H2.
Qed.

Lemma lower_ascii_other (c : ascii) :
  ~ Spec.is_upper c -> JsString.lower_ascii c = c.
Proof.
  intros H. unfold JsString.lower_ascii.
  destruct (65 <=? nat_of_ascii c)%nat eqn:E1;
    destruct (nat_of_ascii c <=? 90)%nat eqn:E2; simpl; try reflexivity.
  exfalso. apply H. split; now apply Nat.leb_le.
Qed.

Lemma is_upper_dec (c : ascii) : {Spec.is_upper c} + {~ Spec.is_upper c}.
Proof.
  unfold Spec.is_upper.
  destruct (le_dec 65 (nat_of_ascii c)); destruct (le_dec (nat_of_ascii c) 90);
    [left|right|right|right]; lia.
Qed.

Lemma same_letter_lower (a b : ascii) :
  Spec.same_letter a b <-> JsString.lower_ascii a = JsString.lower_ascii b.
Proof.
  pose proof (nat_ascii_bounded a) as Ba.
  pose proof (nat_ascii_bounded b) as Bb.
  split.
  - intros [->|[[Hu Hn]|[Hu Hn]]]; [reflexivity| |].
    + rewrite (lower_ascii_upper a Hu), lower_ascii_other.
      * now rewrite <- Hn, ascii_nat_embedding.
      * unfold Spec.is_upper in *. lia.
    + rewrite (lower_ascii_upper b Hu), lower_ascii_other.
      * now rewrite <- Hn, ascii_nat_embedding.
      * unfold Spec.is_upper in *. lia.
  - intros H.
    destruct (is_upper_dec a) as [Ua|Na]; destruct (is_upper_dec b) as [Ub|Nb].
    + rewrite (lower_ascii_upper a Ua), (lower_ascii_upper b Ub) in H.
      apply (f_equal nat_of_ascii) in H.
      unfold Spec.is_upper in *.
      rewrite !nat_ascii_embedding in H by lia.
      left. rewrite <- (ascii_nat_embedding a), <- (ascii_nat_embedding b).
      f_equal. lia.
    + rewrite (lower_ascii_upper a Ua), (lower_ascii_other b Nb) in H.
      apply (f_equal nat_of_ascii) in H.
      unfold Spec.is_upper in Ua.
      rewrite nat_ascii_embedding in H by lia.
      right. left. split; [exact Ua|]. now symmetry.
    + rewrite (lower_ascii_other a Na), (lower_ascii_upper b Ub) in H.
      apply (f_equal nat_of_ascii) in H.
      unfold Spec.is_upper in Ub.
      rewrite nat_ascii_embedding in H by lia.
      right. right. split; [exact Ub|exact H].
    + rewrite (lower_ascii_other a Na), (lower_ascii_other b Nb) in H.
      now left.
Qed.

Lemma same_text_letters (a b : string) :
  Spec.same_text a b <-> Spec.lower_letters a = Spec.lower_letters b.
Proof.
  split.
  - induction 1 as [|c d s t Hc _ IH]; simpl; [reflexivity|].
    apply same_letter_lower in Hc. congruence.
  - revert b. induction a as [|c a IH]; intros [|d b] H; simpl in H;
      try discriminate; [constructor|].
    injection H as Hc Hs. constructor.
    + now apply same_letter_lower.
    + now apply IH.
Qed.

Lemma contains_ignoring_case_letters (name query : string) :
  JsString.includes (Spec.lower_letters name) (Spec.lower_letters query)
    = true
  <-> Spec.contains_ignoring_case name query.
Proof.
  rewrite includes_app. unfold Spec.contains_ignoring_case. split.
  - intros (pre & post & H).
    destruct (lower_letters_split _ _ _ H) as (s1 & s23 & -> & H1 & H23).
    destruct (lower_letters_split _ _ _ H23) as (s2 & s3 & -> & H2 & H3).
    exists s1, s2, s3. split; [reflexivity|]. now apply same_text_letters.
  - intros (pre & mid & post & -> & H). apply same_text_letters in H.
    exists (Spec.lower_letters pre), (Spec.lower_letters post).
    now rewrite !lower_letters_app, H.
Qed.

(** ** toLowerCase *)

Ltac decide_tests :=
  repeat match goal with
         | |- context [Nat.leb ?a ?b] => destruct (Nat.leb_spec a b); try lia
         | |- context [Nat.eqb ?a ?b] => destruct (Nat.eqb_spec a b); try lia
         end.

(** On ASCII text the lowering maps the letters and nothing else. *)
Lemma lower_from_ascii (s : string) :
  Spec.ascii_text s ->
  forall p, JsString.lower_from p s = Spec.lower_letters s.
Proof.
  induction s as [|c s IH]; intros Hs p; [reflexivity|].
  destruct Hs as [Hc Hs]. specialize (IH Hs).
  destruct s as [|d s]; [reflexivity|].
  change (JsString.lower_from p (String c (String d s)))
    with (if JsString.is_capital_sigma c d then
            ((if p && negb (JsString.cased_ahead s)
              then JsString.final_sigma else JsString.small_sigma)
             ++ JsString.lower_from true s)%string
          else if JsString.is_small_sigma c d then
            String c (String d (JsString.lower_from true s))
          else String (JsString.lower_ascii c)
                 (JsString.lower_from (JsString.follows c p) (String d s))).
  assert (E1 : JsString.is_capital_sigma c d = false).
  { unfold JsString.is_capital_sigma. decide_tests; try reflexivity. }
  assert (E2 : JsString.is_small_sigma c d = false).
  { unfold JsString.is_small_sigma. decide_tests; try reflexivity. }
  rewrite E1, E2, IH. reflexivity.
Qed.

Lemma toLowerCase_ascii (s : string) :
  Spec.ascii_text s -> JsString.toLowerCase s = Spec.lower_letters s.
Proof. intros Hs. now apply lower_from_ascii. Qed.

Lemma contains_ignoring_case_includes (name query : string) :
  Spec.ascii_text name ->
  Spec.ascii_text query ->
  (JsString.includes (JsString.toLowerCase name) (JsString.toLowerCase query)
     = true
   <-> Spec.contains_ignoring_case name query).
Proof.
  intros Hn Hq. rewrite (toLowerCase_ascii name Hn), (toLowerCase_ascii query Hq).
  apply contains_ignoring_case_letters.
Qed.

(** Letters that differ only in case are letters of ASCII; every other
    character is related to itself alone. *)
Lemma same_letter_tests (c d : ascii) :
  Spec.same_letter c d ->
  JsString.cased_ascii c = JsString.cased_ascii d
  /\ JsString.case_ignorable_ascii c = JsString.case_ignorable_ascii d
  /\ (forall k, (k = 206 \/ k = 207 \/ k = 163 \/ k = 131 \/ k = 130)%nat ->
        Nat.eqb (nat_of_ascii c) k = Nat.eqb (nat_of_ascii d) k).
Proof.
  unfold Spec.same_letter, Spec.is_upper, JsString.cased_ascii,
    JsString.case_ignorable_ascii.
  intros [->|[[Hu Hn]|[Hu Hn]]]; [auto| |].
  - rewrite Hn. repeat split.
    + decide_tests; try reflexivity.
    + decide_tests; try reflexivity.
    + intros k Hk. decide_tests; try reflexivity.
  - rewrite Hn. repeat split.
    + decide_tests; try reflexivity.
    + decide_tests; try reflexivity.
    + intros k Hk. decide_tests; try reflexivity.
Qed.

Lemma same_letter_sigmas (c d e e' : ascii) :
  Spec.same_letter c d -> Spec.same_letter e e' ->
  JsString.is_capital_sigma c e = JsString.is_capital_sigma d e'
  /\ JsString.is_small_sigma c e = JsString.is_small_sigma d e'.
Proof.
  intros Hc He.
  destruct (same_letter_tests c d Hc) as (_ & _ & Hck).
  destruct (same_letter_tests e e' He) as (_ & _ & Hek).
  unfold JsString.is_capital_sigma, JsString.is_small_sigma.
  rewrite (Hck 206%nat), (Hck 207%nat), (Hek 163%nat), (Hek 131%nat),
    (Hek 130%nat) by tauto.
  split; reflexivity.
Qed.

Lemma same_letter_unchanged (c d : ascii) (k : nat) :
  Spec.same_letter c d -> (128 <= k)%nat -> nat_of_ascii c = k -> c = d.
Proof.
  unfold Spec.same_letter, Spec.is_upper.
  intros [H|[[Hu Hn]|[Hu Hn]]] Hk Hck; [exact H|lia|lia].
Qed.

Lemma cased_ahead_same_text (a b : string) :
  Spec.same_text a b -> JsString.cased_ahead a = JsString.cased_ahead b.
Proof.
  induction 1 as [|c d s t Hc Hst IH]; [reflexivity|].
  destruct (same_letter_tests c d Hc) as (Hcased & Hign & _).
  cbn [JsString.cased_ahead]. rewrite Hcased, Hign, IH.
  destruct (JsString.cased_ascii d); [reflexivity|].
  destruct (JsString.case_ignorable_ascii d); [reflexivity|].
  inversion Hst as [|e e' s' t' He _]; subst; [reflexivity|].
  unfold JsString.starts_with_sigma.
  destruct (same_letter_sigmas c d e e' Hc He) as [-> ->]. reflexivity.
Qed.

Lemma lower_from_same_text (n : nat) :
  forall a b,
    (String.length a <= n)%nat ->
    Spec.same_text a b ->
    forall p, JsString.lower_from p a = JsString.lower_from p b.
Proof.
  induction n as [|n IH]; intros a b Hlen Hab p.
  - destruct a; [|simpl in Hlen; lia]. now inversion Hab.
  - inversion Hab as [|c d s t Hc Hst]; subst; [reflexivity|].
    simpl in Hlen.
    inversion Hst as [|e e' s' t' He Hst']; subst.
    + simpl. now rewrite (proj1 (same_letter_lower c d) Hc).
    + change (JsString.lower_from p (String c (String e s')))
        with (if JsString.is_capital_sigma c e then
                ((if p && negb (JsString.cased_ahead s')
                  then JsString.final_sigma else JsString.small_sigma)
                 ++ JsString.lower_from true s')%string
              else if JsString.is_small_sigma c e then
                String c (String e (JsString.lower_from true s'))
              else String (JsString.lower_ascii c)
                     (JsString.lower_from (JsString.follows c p)
                        (String e s'))).
      change (JsString.lower_from p (String d (String e' t')))
        with (if JsString.is_capital_sigma d e' then
                ((if p && negb (JsString.cased_ahead t')
                  then JsString.final_sigma else JsString.small_sigma)
                 ++ JsString.lower_from true t')%string
              else if JsString.is_small_sigma d e' then
                String d (String e' (JsString.lower_from true t'))
              else String (JsString.lower_ascii d)
                     (JsString.lower_from (JsString.follows d p)
                        (String e' t'))).
      destruct (same_letter_sigmas c d e e' Hc He) as [Hcap Hsmall].
      rewrite <- Hcap, <- Hsmall.
      simpl in Hlen.
      assert (Htail : forall q, JsString.lower_from q s' = JsString.lower_from q t')
        by (apply IH; [lia|exact Hst']).
      destruct (JsString.is_capital_sigma c e) eqn:Ecap.
      * now rewrite (cased_ahead_same_text s' t' Hst'), Htail.
      * destruct (JsString.is_small_sigma c e) eqn:Esmall.
        -- unfold JsString.is_small_sigma in Esmall.
           apply andb_true_iff in Esmall. destruct Esmall as [Ec Ee].
           apply Nat.eqb_eq in Ec.
           rewrite (same_letter_unchanged c d 207 Hc) by (lia || exact Ec).
           apply orb_true_iff in Ee.
           assert (Heq : e = e').
           { destruct Ee as [Ee|Ee]; apply Nat.eqb_eq in Ee.
             - apply (same_letter_unchanged e e' 131 He); [lia|exact Ee].
             - apply (same_letter_unchanged e e' 130 He); [lia|exact Ee]. }
           now rewrite Heq, Htail.
        -- destruct (same_letter_tests c d Hc) as (Hcased & Hign & _).
           unfold JsString.follows. rewrite Hcased, Hign.
           rewrite (proj1 (same_letter_lower c d) Hc).
           f_equal. apply IH; [simpl; lia|exact Hst].
Qed.

Lemma toLowerCase_same_text (a b : string) :
  Spec.same_text a b -> JsString.toLowerCase a = JsString.toLowerCase b.
Proof.
  intros Hab. now apply (lower_from_same_text (String.length a) a b).
Qed.

(** ** performSearch *)

Lemma performSearch_loop (gs : list Group.t) (acc : State) :
  fold_left
    (fun acc group =>
       with_filteredMenuItems
         (filteredMenuItems acc
            ++ filter (name_includes (searchQuery acc)) (Group.menuItems group))
         acc)
    gs acc
  = with_filteredMenuItems
      (filteredMenuItems acc
         ++ flat_map (fun g => filter (name_includes (searchQuery acc))
                                 (Group.menuItems g)) gs)
      acc.
Proof.
  revert acc. induction gs as [|g gs IH]; intros acc; simpl.
  - rewrite app_nil_r. now destruct acc.
  - rewrite IH. simpl. now rewrite <- app_assoc.
Qed.

Lemma performSearch_flat (s : State) :
  performSearch s =
    with_filteredMenuItems
      (flat_map (fun g => filter (name_includes (searchQuery s))
                            (Group.menuItems g))
         (groups s))
      s.
Proof.
  unfold performSearch.
  exact (performSearch_loop (groups s) (with_filteredMenuItems [] s)).
Qed.

Lemma name_includes_iff (query : string) (item : Tag.t) :
  Spec.ascii_text query ->
  Spec.ascii_text (Tag.name item) ->
  (name_includes query item = true
   <-> Spec.contains_ignoring_case (Tag.name item) query).
Proof. intros Hq Hn. now apply contains_ignoring_case_includes. Qed.

Lemma search_input_flat (text : string) (s : State) :
  search_input text s =
    with_filteredMenuItems
      (flat_map (fun g => filter (name_includes text) (Group.menuItems g))
         (groups s))
      (with_searchQuery text s).
Proof. unfold search_input. now rewrite performSearch_flat. Qed.

Lemma search_input_names (text : string) (s : State) :
  map Tag.name (filteredMenuItems (search_input text s)) =
    filter (fun n => JsString.includes (JsString.toLowerCase n)
                       (JsString.toLowerCase text))
      (map Tag.name (flat_map Group.menuItems (groups s))).
Proof.
  rewrite search_input_flat. simpl.
  induction (groups s) as [|g gs IH]; simpl; [reflexivity|].
  rewrite !map_app, filter_app, IH. f_equal.
  induction (Group.menuItems g) as [|t l IHl]; simpl; [reflexivity|].
  unfold name_includes at 1.
  destruct (JsString.includes _ _); simpl; now rewrite IHl.
Qed.


Lemma letters_names_ascii :
  Spec.ascii_names (groups (Samples.state_of [Samples.letters_group])).
Proof.
  intros g item [<-|[]] Hitem. simpl in Hitem.
  destruct Hitem as [<-|[<-|[<-|[]]]]; simpl; repeat split;
    apply Nat.ltb_lt; reflexivity.
Qed.



(** C7, as the code has it.  Over items named Alpha, Box, Exit the query
    ["x"] leaves Box and Exit; over items named Alpha, Box the query ["lo"]
    leaves nothing, since neither name contains it. *)
Theorem search_examples :
  (forall s : State,
      map Tag.name (flat_map Group.menuItems (groups s))
        = ["Alpha"; "Box"; "Exit"] ->
      map Tag.name (filteredMenuItems (search_input "x" s)) = ["Box"; "Exit"])
  /\ (forall s : State,
        map Tag.name (flat_map Group.menuItems (groups s)) = ["Alpha"; "Box"] ->
        map Tag.name (filteredMenuItems (search_input "lo" s)) = []).
Proof.
  split; intros s H; rewrite search_input_names, H; reflexivity.
Qed.

Lemma search_examples_witness :
  map Tag.name
    (filteredMenuItems
       (search_input "x" (Samples.state_of [Samples.letters_group])))
    = ["Box"; "Exit"]
  /\ map Tag.name
       (filteredMenuItems
          (search_input "lo" (Samples.state_of [Samples.alpha_box_group])))
       = [].
Proof.
  destruct search_examples as [Hx Hlo]. split.
  - apply Hx. reflexivity.
  - apply Hlo. reflexivity.
Defined.

(** C7 as stated fails in its second half: ["lo"] over Alpha, Box does not
    leave Alpha. *)
Lemma search_lo_does_not_keep_Alpha :
  map Tag.name
    (flat_map Group.menuItems
       (groups (Samples.state_of [Samples.alpha_box_group])))
    = ["Alpha"; "Box"]
  /\ map Tag.name
       (filteredMenuItems
          (search_input "lo" (Samples.state_of [Samples.alpha_box_group])))
       <> ["Alpha"].
Proof.
  split; [reflexivity|]. vm_compute. discriminate.
Qed.

(** ** fetchData *)

Lemma fetchData_request (props : Props) (s : State) :
  exists type_filter,
    snd (fetchData props s) =
      [TagApi_getAll
         (mkOptions None 100 ["tag_type.name"] [false]
            (mkFilters (project_filter (project props))
               [Filter.mk "Tag" "discoverable" "==" "true"] type_filter))]
    /\ Forall (fun f => Filter.field f <> "name") type_filter.
Proof.
  unfold fetchData, fetchData_options. simpl.
  destruct (model props) as [m|]; [destruct (truthy (Some m))|];
    eexists; (split; [reflexivity|]);
    repeat constructor; simpl; discriminate.
Qed.

Lemma fetchData_ignores_searchQuery (props : Props) (s : State) (text : string) :
  snd (fetchData props (with_searchQuery text s)) = snd (fetchData props s).
Proof. reflexivity. Qed.

(** The branch that splits the query does what its comment says when it is
    given a query: the part before the slash becomes a filter on the name
    of the tag type and the part after it the text query. *)
Lemma fetchData_options_with_slash :
  let options :=
    fetchData_options (Some "priority/high") (Samples.props_of []) in
  q options = Some "high"
  /\ tagTypeFilter (filters options) =
       [Filter.mk "TagType" "name" "==" "priority";
        Filter.mk "TagType" "discoverable_incident" "==" "true"].
Proof. split; reflexivity. Qed.

(** C4.  With the search text ["priority/high"] the request that
    [fetchData] sends carries no text query and no filter on the name of the
    tag type: [filterOptions.q] is the literal [null], so the branch that
    splits at the slash is never entered. *)
Theorem fetchData_sends_no_query :
  snd (fetchData (Samples.props_of [])
         (with_searchQuery "priority/high" initial)) =
    [TagApi_getAll
       (mkOptions None 100 ["tag_type.name"] [false]
          (mkFilters None
             [Filter.mk "Tag" "discoverable" "==" "true"]
             [Filter.mk "TagType" "discoverable_incident" "==" "true"]))].
Proof. reflexivity. Qed.

(** ** Dictionaries *)

Section Dictionary.

Context {V : Type}.
Implicit Types (o : JsObject.t V) (k : N) (v : V).

Lemma get_set_same k v o : JsObject.get k (JsObject.set k v o) = Some v.
Proof.
  induction o as [|[k' v'] o IH]; simpl.
  - now rewrite N.eqb_refl.
  - destruct (N.eqb k k') eqn:E; simpl.
    + now rewrite N.eqb_refl.
    + now rewrite E.
Qed.

Lemma get_set_other k k' v o :
  k <> k' -> JsObject.get k' (JsObject.set k v o) = JsObject.get k' o.
Proof.
  intros Hne. assert (Hf : N.eqb k' k = false) by (apply N.eqb_neq; congruence).
  induction o as [|[k0 v0] o IH]; simpl.
  - now rewrite Hf.
  - destruct (N.eqb k k0) eqn:E; simpl.
    + apply N.eqb_eq in E. subst k0. now rewrite Hf.
    + now rewrite IH.
Qed.

Lemma get_None k o :
  JsObject.get k o = None <-> ~ In k (JsObject.created_keys o).
Proof.
  induction o as [|[k' v'] o IH]; simpl.
  - tauto.
  - destruct (N.eqb k k') eqn:E.
    + apply N.eqb_eq in E. subst. split; [discriminate|tauto].
    + apply N.eqb_neq in E. rewrite IH. split; [|tauto].
      intros H [Heq|Hin]; [congruence|tauto].
Qed.

Lemma created_keys_set k v o :
  JsObject.created_keys (JsObject.set k v o) =
    match JsObject.get k o with
    | Some _ => JsObject.created_keys o
    | None => JsObject.created_keys o ++ [k]
    end.
Proof.
  unfold JsObject.created_keys.
  induction o as [|[k' v'] o IH]; simpl; [reflexivity|].
  destruct (N.eqb k k') eqn:E; simpl.
  - apply N.eqb_eq in E. now subst.
  - rewrite IH. now destruct (JsObject.get k o).
Qed.

End Dictionary.

(** ** The order of [Object.keys] *)

Lemma insert_asc_perm (k : N) (l : list N) :
  Permutation (JsObject.insert_asc k l) (k :: l).
Proof.
  induction l as [|x l IH]; simpl; [reflexivity|].
  destruct (k <=? x)%N; [reflexivity|].
  rewrite IH. apply perm_swap.
Qed.

Lemma sort_asc_perm (l : list N) : Permutation (JsObject.sort_asc l) l.
Proof.
  induction l as [|x l IH]; simpl; [reflexivity|].
  rewrite insert_asc_perm. now apply perm_skip.
Qed.

Lemma insert_asc_sorted (k : N) (l : list N) :
  StronglySorted N.le l -> StronglySorted N.le (JsObject.insert_asc k l).
Proof.
  induction 1 as [|x l Hs IH Hall]; simpl.
  - repeat constructor.
  - destruct (k <=? x)%N eqn:E.
    + apply N.leb_le in E. constructor; [now constructor|].
      constructor; [exact E|].
      eapply Forall_impl; [|exact Hall]. intros y Hy. lia.
    + apply N.leb_gt in E. constructor; [exact IH|].
      rewrite Forall_forall in *. intros y Hy.
      apply (Permutation_in _ (insert_asc_perm k l)) in Hy.
      destruct Hy as [<-|Hy]; [lia|auto].
Qed.

Lemma sort_asc_sorted (l : list N) : StronglySorted N.le (JsObject.sort_asc l).
Proof.
  induction l as [|x l IH]; simpl; [constructor|].
  now apply insert_asc_sorted.
Qed.

Lemma sorted_distinct_ascending (l : list N) :
  StronglySorted N.le l -> NoDup l -> StronglySorted N.lt l.
Proof.
  induction 1 as [|x l Hs IH Hall]; intros Hnd; [constructor|].
  inversion Hnd as [|y l' Hnin Hnd']; subst.
  constructor; [now apply IH|].
  rewrite Forall_forall in *. intros y Hy.
  assert (x <> y) by (intros ->; contradiction).
  specialize (Hall y Hy). lia.
Qed.

Lemma filter_split_perm {A : Type} (p : A -> bool) (l : list A) :
  Permutation (filter p l ++ filter (fun x => negb (p x)) l) l.
Proof.
  induction l as [|x l IH]; simpl; [reflexivity|].
  destruct (p x); simpl.
  - now apply perm_skip.
  - symmetry. apply Permutation_cons_app. now symmetry.
Qed.

Lemma keys_perm {V : Type} (o : JsObject.t V) :
  Permutation (JsObject.keys o) (JsObject.created_keys o).
Proof.
  unfold JsObject.keys. rewrite sort_asc_perm. apply filter_split_perm.
Qed.

(** ** First-seen order *)

Lemma in_first_seen (k : N) (l : list N) :
  In k (Spec.first_seen l) <-> In k l.
Proof.
  induction l as [|x l IH]; simpl; [tauto|].
  rewrite filter_In, IH, negb_true_iff, N.eqb_neq.
  destruct (N.eq_dec x k); [tauto|]. split; [tauto|].
  intros [H|H]; [tauto|]. right. split; [exact H|congruence].
Qed.

Lemma NoDup_first_seen (l : list N) : NoDup (Spec.first_seen l).
Proof.
  induction l as [|x l IH]; simpl; constructor.
  - rewrite filter_In, N.eqb_refl. simpl. intros [_ H]. discriminate.
  - now apply NoDup_filter.
Qed.

Lemma first_seen_new (l : list N) (k : N) :
  ~ In k l -> Spec.first_seen (l ++ [k]) = Spec.first_seen l ++ [k].
Proof.
  induction l as [|x l IH]; simpl; intros H; [reflexivity|].
  rewrite IH by tauto. rewrite filter_app. simpl.
  assert (E : N.eqb k x = false) by (apply N.eqb_neq; intros ->; tauto).
  now rewrite E.
Qed.

Lemma first_seen_again (l : list N) (k : N) :
  In k l -> Spec.first_seen (l ++ [k]) = Spec.first_seen l.
Proof.
  induction l as [|x l IH]; simpl; intros H; [contradiction|].
  destruct (in_dec N.eq_dec k l) as [Hin|Hnin].
  - now rewrite IH.
  - destruct H as [->|H]; [|contradiction].
    rewrite first_seen_new by exact Hnin. rewrite filter_app. simpl.
    rewrite N.eqb_refl. simpl. now rewrite app_nil_r.
Qed.

(** ** convertData *)

Lemma tags_of_type_app (l1 l2 : list Tag.t) (k : N) :
  Spec.tags_of_type (l1 ++ l2) k =
    Spec.tags_of_type l1 k ++ Spec.tags_of_type l2 k.
Proof. apply filter_app. Qed.

Lemma tags_of_type_unseen (seen : list Tag.t) (k : N) :
  ~ In k (map Spec.type_id seen) -> Spec.tags_of_type seen k = [].
Proof.
  induction seen as [|a l IH]; simpl; intros H; [reflexivity|].
  destruct (N.eqb (Spec.type_id a) k) eqn:E.
  - apply N.eqb_eq in E. tauto.
  - apply IH. tauto.
Qed.

Lemma grouped_created (seen : list Tag.t) (r : JsObject.t Group.t) (k : N) :
  Spec.grouped seen r ->
  (JsObject.get k r = None <-> ~ In k (map Spec.type_id seen)).
Proof.
  intros [Hkeys _]. now rewrite get_None, Hkeys, in_first_seen.
Qed.

(** One step of the reduction keeps the dictionary grouped. *)
Lemma reduce_step_grouped (seen : list Tag.t) (r : JsObject.t Group.t)
    (a : Tag.t) :
  Spec.grouped seen r -> Spec.grouped (seen ++ [a]) (reduce_step r a).
Proof.
  intros Hg. pose proof Hg as [Hkeys Hget].
  unfold reduce_step. fold (Spec.type_id a). set (k := Spec.type_id a).
  destruct (JsObject.get k r) as [g|] eqn:E.
  - rewrite E. destruct (Hget k g E) as (Hid & Hitems & a0 & rest & Hfirst & Hmeta).
    assert (Hseen : In k (map Spec.type_id seen)).
    { destruct (in_dec N.eq_dec k (map Spec.type_id seen)) as [H|H]; [exact H|].
      apply (grouped_created seen r k Hg) in H. congruence. }
    split.
    + rewrite created_keys_set, E, Hkeys, map_app. simpl.
      now rewrite first_seen_again.
    + intros k' g' Hk'. rewrite tags_of_type_app. simpl.
      destruct (N.eq_dec k k') as [<-|Hne].
      * rewrite get_set_same in Hk'. injection Hk' as <-.
        fold k. rewrite N.eqb_refl. simpl.
        split; [exact Hid|]. split; [now rewrite Hitems|].
        exists a0, (rest ++ [a]). rewrite Hfirst. auto.
      * rewrite get_set_other in Hk' by exact Hne.
        assert (Ef : N.eqb (Spec.type_id a) k' = false) by now apply N.eqb_neq.
        rewrite Ef, app_nil_r. now apply Hget.
  - rewrite get_set_same.
    assert (Hnew : ~ In k (map Spec.type_id seen))
      by now apply (grouped_created seen r k Hg).
    split.
    + rewrite created_keys_set, get_set_same, created_keys_set, E, Hkeys.
      rewrite map_app. simpl. now rewrite first_seen_new.
    + intros k' g' Hk'. rewrite tags_of_type_app. simpl.
      destruct (N.eq_dec k k') as [<-|Hne].
      * rewrite get_set_same in Hk'. injection Hk' as <-.
        fold k. rewrite N.eqb_refl, (tags_of_type_unseen seen k Hnew). simpl.
        split; [reflexivity|]. split; [reflexivity|].
        exists a, []. split; [reflexivity|]. repeat split.
      * rewrite !get_set_other in Hk' by exact Hne.
        assert (Ef : N.eqb (Spec.type_id a) k' = false) by now apply N.eqb_neq.
        rewrite Ef, app_nil_r. now apply Hget.
Qed.

Lemma reduce_grouped (data seen : list Tag.t) (r : JsObject.t Group.t) :
  Spec.grouped seen r ->
  Spec.grouped (seen ++ data) (fold_left reduce_step data r).
Proof.
  revert seen r. induction data as [|a data IH]; intros seen r Hg; simpl.
  - now rewrite app_nil_r.
  - replace (seen ++ a :: data) with ((seen ++ [a]) ++ data)
      by now rewrite <- app_assoc.
    apply IH. now apply reduce_step_grouped.
Qed.

Lemma groupedObject_grouped (data : list Tag.t) :
  Spec.grouped data (fold_left reduce_step data JsObject.create_null).
Proof.
  apply (reduce_grouped data [] JsObject.create_null).
  split; [reflexivity|]. intros k g H. discriminate.
Qed.

Lemma values_by_key_ids (r : JsObject.t Group.t) (l : list N) :
  (forall k, In k l ->
     exists g, JsObject.get k r = Some g /\ Group.id g = k) ->
  map Group.id
    (flat_map (fun key => match JsObject.get key r with
                          | Some v => [v]
                          | None => []
                          end) l) = l.
Proof.
  induction l as [|k l IH]; intros H; simpl; [reflexivity|].
  destruct (H k (or_introl eq_refl)) as (g & -> & Hid). simpl.
  rewrite Hid, IH; [reflexivity|]. intros k' Hk'. apply H. now right.
Qed.

Lemma in_values_by_key (r : JsObject.t Group.t) (g : Group.t) :
  In g (values_by_key r) -> exists k, JsObject.get k r = Some g.
Proof.
  unfold values_by_key. rewrite in_flat_map. intros (k & _ & Hin).
  exists k. destruct (JsObject.get k r) as [v|]; [|contradiction].
  destruct Hin as [->|[]]. reflexivity.
Qed.

Lemma convertData_ids (data : list Tag.t) :
  map Group.id (convertData data) =
    JsObject.keys (fold_left reduce_step data JsObject.create_null).
Proof.
  unfold convertData, values_by_key.
  pose proof (groupedObject_grouped data) as Hg.
  set (r := fold_left reduce_step data JsObject.create_null) in *.
  apply values_by_key_ids. intros k Hk.
  apply (Permutation_in _ (keys_perm r)) in Hk.
  destruct (JsObject.get k r) as [g|] eqn:E.
  - exists g. split; [reflexivity|]. now apply (proj2 Hg k g E).
  - apply get_None in E. contradiction.
Qed.

Lemma convertData_key_order (data : list Tag.t) :
  map Group.id (convertData data) =
    JsObject.sort_asc
      (filter JsObject.is_array_index
         (Spec.first_seen (map Spec.type_id data)))
    ++ filter (fun k => negb (JsObject.is_array_index k))
         (Spec.first_seen (map Spec.type_id data)).
Proof.
  rewrite convertData_ids. unfold JsObject.keys.
  now rewrite (proj1 (groupedObject_grouped data)).
Qed.

Lemma sort_asc_ascending (l : list N) :
  NoDup l -> StronglySorted N.lt (JsObject.sort_asc l).
Proof.
  intros Hnd. apply sorted_distinct_ascending; [apply sort_asc_sorted|].
  exact (Permutation_NoDup (Permutation_sym (sort_asc_perm l)) Hnd).
Qed.

(** X27.  For every fetched list, [convertData] yields one group per
    distinct [tag_type.id]; the menu items of a group are all and only the
    fetched tags of that type, in fetch order; the metadata of a group is
    copied from the tag type of the first such tag.  The groups come in the
    order of [Object.keys]: first the ids that are array indices,
    ascending, then the other ids in first-seen order. *)
Theorem convertData_groups (data : list Tag.t) :
  let ids := map Spec.type_id data in
  let gs := convertData data in
  NoDup (map Group.id gs)
  /\ (forall k, In k (map Group.id gs) <-> In k ids)
  /\ (forall g, In g gs ->
        Group.menuItems g =
          filter (fun a => N.eqb (TagType.id (Tag.tag_type a)) (Group.id g)) data
        /\ exists a rest,
             Group.menuItems g = a :: rest
             /\ Spec.metadata_of g (Tag.tag_type a))
  /\ exists indices others,
       map Group.id gs = indices ++ others
       /\ StronglySorted N.lt indices
       /\ Permutation indices
            (filter JsObject.is_array_index (Spec.first_seen ids))
       /\ others =
            filter (fun k => negb (JsObject.is_array_index k))
              (Spec.first_seen ids).
Proof.
  intros ids gs.
  pose proof (groupedObject_grouped data) as Hg.
  pose proof (convertData_ids data) as Hids.
  fold gs in Hids.
  set (r := fold_left reduce_step data JsObject.create_null) in *.
  destruct Hg as [Hkeys Hget]. fold ids in Hkeys.
  pose proof (keys_perm r) as Hperm. rewrite Hkeys in Hperm.
  split; [|split; [|split]].
  - rewrite Hids. apply (Permutation_NoDup (Permutation_sym Hperm)).
    apply NoDup_first_seen.
  - intros k. rewrite Hids. rewrite <- (in_first_seen k ids). split.
    + apply Permutation_in. exact Hperm.
    + apply Permutation_in. now symmetry.
  - intros g Hin. apply in_values_by_key in Hin. destruct Hin as [k Hk].
    destruct (Hget k g Hk) as (Hid & Hitems & a & rest & Hfirst & Hmeta).
    split.
    + rewrite Hitems, Hid. reflexivity.
    + exists a, rest. split; [congruence|exact Hmeta].
  - exists (JsObject.sort_asc (filter JsObject.is_array_index (Spec.first_seen ids))),
      (filter (fun k => negb (JsObject.is_array_index k)) (Spec.first_seen ids)).
    split; [|split; [|split]].
    + apply convertData_key_order.
    + apply sort_asc_ascending, NoDup_filter, NoDup_first_seen.
    + apply sort_asc_perm.
    + reflexivity.
Qed.

(** C3.  The groups are meant to come in first-seen order, the order of
    the tag-type names that [fetchData] asks the API for.  [convertData]
    loses it: the phishing tag of type "category" (id 7) is fetched before
    P1 of type "priority" (id 1), and the groups come out with priority
    first, because [Object.keys] lists integer keys in ascending order. *)
Lemma groups_not_in_first_seen_order :
  map Spec.type_id [Samples.phishing; Samples.P1] = [7; 1]%N
  /\ map Group.id (convertData [Samples.phishing; Samples.P1]) = [1; 7]%N
  /\ map Group.label (convertData [Samples.phishing; Samples.P1]) =
       ["priority"; "category"]
  /\ map Group.id (convertData [Samples.phishing; Samples.P1]) <>
       Spec.first_seen (map Spec.type_id [Samples.phishing; Samples.P1]).
Proof.
  split; [reflexivity|]. split; [reflexivity|]. split; [reflexivity|].
  vm_compute. discriminate.
Qed.

(** With the integer ids of the API, all below [2^32 - 1], the groups are
    ordered by ascending id. *)
Corollary convertData_ascending_ids (data : list Tag.t) :
  Forall (fun a => (Spec.type_id a < 4294967295)%N) data ->
  StronglySorted N.lt (map Group.id (convertData data)).
Proof.
  intros Hsmall. rewrite convertData_key_order.
  assert (Hidx : forall k, In k (Spec.first_seen (map Spec.type_id data)) ->
                           JsObject.is_array_index k = true).
  { intros k Hin. apply in_first_seen, in_map_iff in Hin.
    destruct Hin as (a & <- & Ha). rewrite Forall_forall in Hsmall.
    now apply N.ltb_lt, Hsmall. }
  assert (Hnone : filter (fun k => negb (JsObject.is_array_index k))
                    (Spec.first_seen (map Spec.type_id data)) = []).
  { induction (Spec.first_seen (map Spec.type_id data)) as [|k l IH];
      simpl; [reflexivity|].
    rewrite (Hidx k) by now left. simpl. apply IH.
    intros k' Hk'. apply Hidx. now right. }
  rewrite Hnone, app_nil_r.
  apply sort_asc_ascending, NoDup_filter, NoDup_first_seen.
Qed.

(** * Further properties of the component *)

(** ** Grouping loses nothing *)

Lemma values_by_key_map {B : Type} (r : JsObject.t Group.t)
    (f : Group.t -> B) (F : N -> B) (l : list N) :
  (forall k, In k l -> exists g, JsObject.get k r = Some g /\ f g = F k) ->
  map f (flat_map (fun key => match JsObject.get key r with
                              | Some v => [v]
                              | None => []
                              end) l) = map F l.
Proof.
  induction l as [|k l IH]; intros H; simpl; [reflexivity|].
  destruct (H k (or_introl eq_refl)) as (g & -> & Hf). simpl.
  rewrite Hf, IH; [reflexivity|]. intros k' Hk'. apply H. now right.
Qed.

Lemma convertData_menuItems (data : list Tag.t) :
  map Group.menuItems (convertData data) =
    map (Spec.tags_of_type data) (map Group.id (convertData data)).
Proof.
  rewrite convertData_ids. unfold convertData, values_by_key.
  pose proof (groupedObject_grouped data) as Hg.
  set (r := fold_left reduce_step data JsObject.create_null) in *.
  apply values_by_key_map. intros k Hk.
  apply (Permutation_in _ (keys_perm r)) in Hk.
  destruct (JsObject.get k r) as [g|] eqn:E.
  - exists g. split; [reflexivity|]. now apply (proj2 Hg k g E).
  - apply get_None in E. contradiction.
Qed.

Lemma tags_of_type_without (data : list Tag.t) (k k' : N) :
  k <> k' ->
  Spec.tags_of_type
    (filter (fun a => negb (N.eqb (Spec.type_id a) k)) data) k'
  = Spec.tags_of_type data k'.
Proof.
  intros Hne. unfold Spec.tags_of_type.
  induction data as [|a data IH]; simpl; [reflexivity|].
  destruct (N.eqb (Spec.type_id a) k) eqn:Ek; simpl.
  - apply N.eqb_eq in Ek.
    assert (Ef : N.eqb (Spec.type_id a) k' = false)
      by (apply N.eqb_neq; congruence).
    now rewrite Ef.
  - now rewrite IH.
Qed.

Lemma flat_map_agree {A B : Type} (f g : A -> list B) (l : list A) :
  (forall x, In x l -> f x = g x) -> flat_map f l = flat_map g l.
Proof.
  induction l as [|x l IH]; intros H; simpl; [reflexivity|].
  rewrite (H x) by now left. rewrite IH; [reflexivity|].
  intros y Hy. apply H. now right.
Qed.

Lemma convertData_ids_perm (data : list Tag.t) :
  Permutation (map Group.id (convertData data))
    (Spec.first_seen (map Spec.type_id data)).
Proof.
  rewrite convertData_ids, <- (proj1 (groupedObject_grouped data)).
  apply keys_perm.
Qed.

Lemma partition_by_type (keys : list N) (data : list Tag.t) :
  NoDup keys ->
  (forall a, In a data -> In (Spec.type_id a) keys) ->
  Permutation (flat_map (Spec.tags_of_type data) keys) data.
Proof.
  revert data. induction keys as [|k keys IH]; intros data Hnd Hall; simpl.
  - destruct data as [|a data]; [reflexivity|].
    destruct (Hall a (or_introl eq_refl)).
  - apply NoDup_cons_iff in Hnd. destruct Hnd as [Hfresh Hnd].
    set (others := filter (fun a => negb (N.eqb (Spec.type_id a) k)) data).
    assert (Hsame : flat_map (Spec.tags_of_type data) keys =
                    flat_map (Spec.tags_of_type others) keys).
    { apply flat_map_agree. intros k' Hk'. symmetry.
      apply tags_of_type_without. intros ->. contradiction. }
    rewrite Hsame, (IH others Hnd).
    + apply (filter_split_perm (fun a => N.eqb (Spec.type_id a) k) data).
    + intros a Ha. apply filter_In in Ha. destruct Ha as [Ha Hk].
      apply negb_true_iff, N.eqb_neq in Hk.
      destruct (Hall a Ha) as [Heq|Hin]; [congruence|exact Hin].
Qed.

Lemma convertData_items_perm (data : list Tag.t) :
  Permutation (flat_map Group.menuItems (convertData data)) data.
Proof.
  rewrite flat_map_concat_map, convertData_menuItems.
  rewrite <- flat_map_concat_map.
  pose proof (convertData_ids_perm data) as Hids.
  apply partition_by_type.
  - apply (Permutation_NoDup (Permutation_sym Hids)), NoDup_first_seen.
  - intros a Ha. apply (Permutation_in _ (Permutation_sym Hids)).
    apply in_first_seen. now apply in_map.
Qed.

(** X1.  The groups partition the fetched list: the menu items of all
    groups together are the fetched tags, each tag once, and no group is
    produced for an empty list. *)
Theorem convertData_partitions (data : list Tag.t) :
  Permutation (flat_map Group.menuItems (convertData data)) data
  /\ (convertData data = [] <-> data = []).
Proof.
  pose proof (convertData_items_perm data) as Hperm.
  split; [exact Hperm|]. split.
  - intros E. rewrite E in Hperm. simpl in Hperm.
    now apply Permutation_nil in Hperm.
  - intros ->. reflexivity.
Qed.

(** ** removeItem on any selection *)

Lemma nullish_dec (v : JsValue) : {Spec.nullish v} + {~ Spec.nullish v}.
Proof.
  unfold Spec.nullish.
  destruct v; try (right; intros [H|H]; discriminate); left; auto.
Qed.

Lemma remove_test (index : N) (v : JsValue) :
  (Spec.nullish v /\
   (i <- prop_id v ;;
    Ok (match i with
        | Some n => negb (N.eqb n index)
        | None => true
        end)) = TypeError)
  \/ (~ Spec.nullish v /\
      exists b,
        (i <- prop_id v ;;
         Ok (match i with
             | Some n => negb (N.eqb n index)
             | None => true
             end)) = Ok b
        /\ (b = true <-> forall t, v = JsTag t -> Tag.id t <> index)).
Proof.
  destruct v as [| |b|n|s|t]; simpl;
    try (left; split; [unfold Spec.nullish; auto|reflexivity]);
    right; (split; [intros [H|H]; discriminate|]); eexists;
    (split; [reflexivity|]).
  - split; [intros _ t H; discriminate|reflexivity].
  - split; [intros _ t H; discriminate|reflexivity].
  - split; [intros _ t H; discriminate|reflexivity].
  - rewrite negb_true_iff, N.eqb_neq. split.
    + intros H u Hu. injection Hu as <-. exact H.
    + intros H. now apply H.
Qed.

Lemma filterM_throws {A : Type} (p : A -> Res bool) (l : list A) :
  filterM p l = TypeError <-> exists x, In x l /\ p x = TypeError.
Proof.
  induction l as [|x l IH]; simpl.
  - split; [discriminate|]. intros (x & [] & _).
  - destruct (p x) as [b|] eqn:E; simpl.
    + destruct (filterM p l) as [rest|] eqn:El; simpl.
      * split; [discriminate|]. intros (y & [<-|Hy] & Hp); [congruence|].
        destruct IH as [_ IH]. discriminate IH. now exists y.
      * split; [|reflexivity]. intros _.
        destruct IH as [IH _]. destruct (IH eq_refl) as (y & Hy & Hp).
        exists y. auto.
    + split; [|reflexivity]. intros _. exists x. auto.
Qed.

Lemma filterM_kept {A : Type} (p : A -> Res bool) (l out : list A) :
  filterM p l = Ok out ->
  forall x, In x out <-> In x l /\ p x = Ok true.
Proof.
  revert out. induction l as [|x l IH]; simpl; intros out H.
  - injection H as <-. intros y. simpl. tauto.
  - destruct (p x) as [b|] eqn:E; simpl in H; [|discriminate].
    destruct (filterM p l) as [rest|] eqn:El; simpl in H; [|discriminate].
    injection H as <-. intros y. specialize (IH rest eq_refl y).
    destruct b; simpl; rewrite ?IH; split.
    + intros [<-|[H1 H2]]; auto.
    + intros [[<-|H1] H2]; auto.
    + intros [H1 H2]; auto.
    + intros [[<-|H1] H2]; [congruence|auto].
Qed.

(** X2.  [removeItem] throws exactly when the selection holds [null] or
    [undefined].  Otherwise it emits one update, which carries the entries
    of the selection other than the strings and the tags with the removed
    id. *)
Theorem removeItem_any_selection (props : Props) (index : N) :
  (removeItem props index = TypeError
   <-> exists v, In v (modelValue props) /\ Spec.nullish v)
  /\ (forall effects,
        removeItem props index = Ok effects ->
        exists out,
          effects = [Emit_update_modelValue out]
          /\ forall v,
               In v out
               <-> In v (modelValue props)
                   /\ Spec.not_string v
                   /\ (forall t, v = JsTag t -> Tag.id t <> index)).
Proof.
  unfold removeItem, selectedItems_get.
  set (p := fun item : JsValue =>
              i <- prop_id item ;;
              Ok (match i with
                  | Some n => negb (N.eqb n index)
                  | None => true
                  end)).
  split.
  - destruct (filterM p (modelValue props)) as [kept|] eqn:E; simpl.
    + split; [discriminate|]. intros (v & Hv & Hn). exfalso.
      assert (Ht : filterM p (modelValue props) = TypeError).
      { apply filterM_throws. exists v. split; [exact Hv|].
        destruct (remove_test index v) as [[_ H]|[H _]]; [exact H|contradiction]. }
      congruence.
    + split; [|reflexivity]. intros _.
      apply filterM_throws in E. destruct E as (v & Hv & Hp).
      exists v. split; [exact Hv|].
      destruct (remove_test index v) as [[H _]|[_ (b & H & _)]]; [exact H|].
      unfold p in Hp. congruence.
  - intros effects H.
    destruct (filterM p (modelValue props)) as [kept|] eqn:E; simpl in H;
      [|discriminate].
    injection H as <-. eexists. split; [reflexivity|]. intros v.
    pose proof (filter_without_strings kept) as Hws.
    apply without_strings_facts in Hws. destruct Hws as [_ Hin].
    rewrite Hin, (filterM_kept p _ _ E v). unfold Spec.not_string. split.
    + intros [[Hv Hp] Hs]. repeat split; auto.
      destruct (remove_test index v) as [[_ H]|[_ (b & H & Hb)]];
        unfold p in Hp; [congruence|].
      apply Hb. congruence.
    + intros (Hv & Hs & Hid). repeat split; auto.
      assert (Hnn : ~ Spec.nullish v).
      { intros Hn. assert (Ht : filterM p (modelValue props) = TypeError).
        { apply filterM_throws. exists v. split; [exact Hv|].
          destruct (remove_test index v) as [[_ H]|[H _]];
            [exact H|contradiction]. }
        congruence. }
      destruct (remove_test index v) as [[H _]|[_ (b & H & Hb)]];
        [contradiction|].
      unfold p. rewrite H. f_equal. now apply Hb.
Qed.

(** ** Closing a chip *)

Lemma filter_other_ids (index : N) (l : list Tag.t) :
  ~ In index (map Tag.id l) ->
  filter (fun t => negb (N.eqb (Tag.id t) index)) l = l.
Proof.
  induction l as [|t l IH]; simpl; intros H; [reflexivity|].
  assert (E : N.eqb (Tag.id t) index = false) by (apply N.eqb_neq; tauto).
  rewrite E. simpl. rewrite IH; [reflexivity|tauto].
Qed.

(** X3.  With pairwise distinct ids in the selection, closing the chip of a
    selected tag emits the selection without that tag and with the other
    tags in their order. *)
Theorem removeItem_closes_chip (props : Props) (pre post : list Tag.t)
    (item : Tag.t) :
  modelValue props = map JsTag (pre ++ item :: post) ->
  NoDup (map Tag.id (pre ++ item :: post)) ->
  removeItem props (Tag.id item) =
    Ok [Emit_update_modelValue (map JsTag (pre ++ post))].
Proof.
  intros Hsel Hnd. rewrite (removeItem_tags props _ _ Hsel).
  rewrite map_app in Hnd. simpl in Hnd.
  pose proof (NoDup_remove_2 _ _ _ Hnd) as Hfresh.
  rewrite filter_app. simpl. rewrite N.eqb_refl. simpl.
  rewrite !filter_other_ids; [reflexivity| |];
    intros H; apply Hfresh, in_or_app; auto.
Qed.

Lemma removeItem_closes_chip_witness :
  removeItem
    (Samples.props_of [JsTag Samples.P1; JsTag Samples.sev1; JsTag Samples.P2])
    (Tag.id Samples.sev1) =
  Ok [Emit_update_modelValue [JsTag Samples.P1; JsTag Samples.P2]].
Proof.
  apply (removeItem_closes_chip
           (Samples.props_of
              [JsTag Samples.P1; JsTag Samples.sev1; JsTag Samples.P2])
           [Samples.P1] [Samples.P2] Samples.sev1).
  - reflexivity.
  - simpl. repeat constructor; simpl; intros H;
      repeat (destruct H as [H|H]; try discriminate); exact H.
Defined.

(** X4.  Removing an id leaves no selected tag with that id, however many
    had it; removing an id that no selected tag has still emits an update,
    with the selection unchanged. *)
Theorem removeItem_clears_id (props : Props) (sel : list Tag.t) (index : N) :
  modelValue props = map JsTag sel ->
  exists out,
    removeItem props index = Ok [Emit_update_modelValue (map JsTag out)]
    /\ ~ In index (map Tag.id out)
    /\ (forall t, In t out <-> In t sel /\ Tag.id t <> index)
    /\ (~ In index (map Tag.id sel) -> out = sel).
Proof.
  intros Hsel.
  exists (filter (fun t => negb (N.eqb (Tag.id t) index)) sel).
  split; [now apply removeItem_tags|]. split; [|split].
  - rewrite in_map_iff. intros (t & Hid & Hin). apply filter_In in Hin.
    destruct Hin as [_ Hk]. apply negb_true_iff, N.eqb_neq in Hk. contradiction.
  - intros t. now rewrite filter_In, negb_true_iff, N.eqb_neq.
  - apply filter_other_ids.
Qed.

Lemma removeItem_clears_id_witness :
  exists out,
    removeItem (Samples.props_of [JsTag Samples.P1; JsTag Samples.P1_renamed]) 1
      = Ok [Emit_update_modelValue (map JsTag out)]
    /\ ~ In 1%N (map Tag.id out).
Proof.
  destruct (removeItem_clears_id
              (Samples.props_of [JsTag Samples.P1; JsTag Samples.P1_renamed])
              [Samples.P1; Samples.P1_renamed] 1 eq_refl)
    as (out & H1 & H2 & _).
  exists out. split; assumption.
Defined.

(** ** Removals compose *)

Lemma filter_ids_twice (i j : N) (l : list Tag.t) :
  filter (fun t => negb (N.eqb (Tag.id t) j))
    (filter (fun t => negb (N.eqb (Tag.id t) i)) l)
  = filter (fun t => negb (N.eqb (Tag.id t) i))
      (filter (fun t => negb (N.eqb (Tag.id t) j)) l).
Proof.
  induction l as [|t l IH]; simpl; [reflexivity|].
  destruct (N.eqb (Tag.id t) i) eqn:Ei; destruct (N.eqb (Tag.id t) j) eqn:Ej;
    simpl; rewrite ?Ei, ?Ej; simpl; now rewrite IH.
Qed.

Lemma filter_ids_again (i : N) (l : list Tag.t) :
  filter (fun t => negb (N.eqb (Tag.id t) i))
    (filter (fun t => negb (N.eqb (Tag.id t) i)) l)
  = filter (fun t => negb (N.eqb (Tag.id t) i)) l.
Proof.
  induction l as [|t l IH]; simpl; [reflexivity|].
  destruct (N.eqb (Tag.id t) i) eqn:Ei; simpl; rewrite ?Ei; simpl;
    now rewrite IH.
Qed.

(** X5.  When the host stores each emitted selection, removing the same id
    a second time changes nothing, and two removals give the same
    selection in either order. *)
Theorem removeItem_composes (props : Props) (sel : list Tag.t) (i j : N) :
  modelValue props = map JsTag sel ->
  exists after_i after_j both,
    removeItem props i = Ok [Emit_update_modelValue after_i]
    /\ removeItem props j = Ok [Emit_update_modelValue after_j]
    /\ removeItem (Spec.adopt after_i props) i =
         Ok [Emit_update_modelValue after_i]
    /\ removeItem (Spec.adopt after_i props) j =
         Ok [Emit_update_modelValue both]
    /\ removeItem (Spec.adopt after_j props) i =
         Ok [Emit_update_modelValue both].
Proof.
  intros Hsel.
  exists (map JsTag (filter (fun t => negb (N.eqb (Tag.id t) i)) sel)),
    (map JsTag (filter (fun t => negb (N.eqb (Tag.id t) j)) sel)),
    (map JsTag (filter (fun t => negb (N.eqb (Tag.id t) j))
                  (filter (fun t => negb (N.eqb (Tag.id t) i)) sel))).
  split; [now apply removeItem_tags|].
  split; [now apply removeItem_tags|].
  split; [|split].
  - rewrite (removeItem_tags (Spec.adopt _ props)
               (filter (fun t => negb (N.eqb (Tag.id t) i)) sel) i eq_refl).
    now rewrite filter_ids_again.
  - now rewrite (removeItem_tags (Spec.adopt _ props)
                   (filter (fun t => negb (N.eqb (Tag.id t) i)) sel) j eq_refl).
  - rewrite (removeItem_tags (Spec.adopt _ props)
               (filter (fun t => negb (N.eqb (Tag.id t) j)) sel) i eq_refl).
    now rewrite filter_ids_twice.
Qed.

Lemma removeItem_composes_witness :
  let props :=
    Samples.props_of [JsTag Samples.P1; JsTag Samples.sev1; JsTag Samples.P2] in
  exists after_i after_j both,
    removeItem props 1 = Ok [Emit_update_modelValue after_i]
    /\ removeItem props 2 = Ok [Emit_update_modelValue after_j]
    /\ removeItem (Spec.adopt after_i props) 1 =
         Ok [Emit_update_modelValue after_i]
    /\ removeItem (Spec.adopt after_i props) 2 =
         Ok [Emit_update_modelValue both]
    /\ removeItem (Spec.adopt after_j props) 1 =
         Ok [Emit_update_modelValue both].
Proof.
  exact (removeItem_composes
           (Samples.props_of
              [JsTag Samples.P1; JsTag Samples.sev1; JsTag Samples.P2])
           [Samples.P1; Samples.sev1; Samples.P2] 1 2 eq_refl).
Defined.

(** ** Clicking twice *)

Lemma looseIndexOf_appended (sel : list Tag.t) (item : Tag.t) :
  ~ Spec.present item sel ->
  Vue.looseIndexOf (map JsTag (sel ++ [item])) item = Some (List.length sel).
Proof.
  induction sel as [|t sel IH]; simpl; intros Habs.
  - now rewrite looseEqual_tag_refl.
  - destruct (Vue.looseEqual_tag t item) eqn:E.
    + exfalso. apply Habs. exists t. split; [now left|exact E].
    + rewrite IH; [reflexivity|].
      intros (s & Hs & Hl). apply Habs. exists s. split; [now right|exact Hl].
Qed.

Lemma splice1_last {A : Type} (l : list A) (x : A) :
  Vue.splice1 (List.length l) (l ++ [x]) = l.
Proof. induction l as [|y l IH]; simpl; [reflexivity|]. now rewrite IH. Qed.

Lemma absent_of_fresh_id (item : Tag.t) (sel : list Tag.t) :
  ~ In (Tag.id item) (map Tag.id sel) -> ~ Spec.present item sel.
Proof.
  intros Hfresh (s & Hs & Hl). apply Hfresh. apply looseEqual_tag_id in Hl.
  rewrite <- Hl. now apply in_map.
Qed.

(** X6.  Checking a box and unchecking it again gives back the selection
    as it was, when the host stores each emitted selection. *)
Theorem check_then_uncheck (props : Props) (sel : list Tag.t) (item : Tag.t) :
  modelValue props = map JsTag sel ->
  ~ Spec.present item sel ->
  checkbox_click props item =
    [Emit_update_modelValue (map JsTag (sel ++ [item]))]
  /\ checkbox_click (Spec.adopt (map JsTag (sel ++ [item])) props) item =
       [Emit_update_modelValue (map JsTag sel)].
Proof.
  intros Hsel Habs. split; [now apply checkbox_click_absent|].
  unfold checkbox_click, Vue.checkbox_checked, Vue.checkbox_change,
    selectedItems_get, Spec.adopt. simpl.
  rewrite (looseIndexOf_appended sel item Habs). simpl.
  rewrite map_app. simpl. rewrite <- (length_map JsTag sel), splice1_last.
  apply selectedItems_set_tags.
Qed.

Lemma check_then_uncheck_witness :
  checkbox_click (Samples.props_of [JsTag Samples.P1]) Samples.sev1 =
    [Emit_update_modelValue [JsTag Samples.P1; JsTag Samples.sev1]]
  /\ checkbox_click
       (Spec.adopt [JsTag Samples.P1; JsTag Samples.sev1]
          (Samples.props_of [JsTag Samples.P1]))
       Samples.sev1 =
     [Emit_update_modelValue [JsTag Samples.P1]].
Proof.
  apply (check_then_uncheck (Samples.props_of [JsTag Samples.P1])
           [Samples.P1] Samples.sev1 eq_refl).
  apply absent_of_fresh_id. simpl. intros [H|[]]. discriminate.
Defined.

(** X7.  With pairwise distinct ids, unchecking a selected tag and checking
    it again does not restore its place: the tag ends up last. *)
Theorem uncheck_then_check (props : Props) (pre post : list Tag.t)
    (item : Tag.t) :
  modelValue props = map JsTag (pre ++ item :: post) ->
  NoDup (map Tag.id (pre ++ item :: post)) ->
  checkbox_click props item =
    [Emit_update_modelValue (map JsTag (pre ++ post))]
  /\ checkbox_click (Spec.adopt (map JsTag (pre ++ post)) props) item =
       [Emit_update_modelValue (map JsTag (pre ++ post ++ [item]))].
Proof.
  intros Hsel Hnd. split; [now apply checkbox_click_selected|].
  rewrite app_assoc.
  apply (checkbox_click_absent (Spec.adopt _ props) (pre ++ post) item eq_refl).
  apply absent_of_fresh_id. rewrite map_app in *. simpl in Hnd.
  now apply NoDup_remove_2 in Hnd.
Qed.

Lemma uncheck_then_check_witness :
  checkbox_click
    (Spec.adopt [JsTag Samples.sev1]
       (Samples.props_of [JsTag Samples.P1; JsTag Samples.sev1]))
    Samples.P1 =
  [Emit_update_modelValue [JsTag Samples.sev1; JsTag Samples.P1]].
Proof.
  destruct (uncheck_then_check
              (Samples.props_of [JsTag Samples.P1; JsTag Samples.sev1])
              [] [Samples.sev1] Samples.P1 eq_refl) as [_ H].
  - simpl. repeat constructor; simpl; intros H;
      repeat (destruct H as [H|H]; try discriminate); exact H.
  - exact H.
Defined.

(** ** What a click emits *)

Lemma looseIndexOf_none (l : list JsValue) (item : Tag.t) :
  Vue.looseIndexOf l item = None ->
  forall v, In v l -> Vue.looseEqual v item = false.
Proof.
  induction l as [|x l IH]; simpl; intros H v Hv; [destruct Hv|].
  destruct (Vue.looseEqual x item) eqn:E; [discriminate|].
  destruct (Vue.looseIndexOf l item); [discriminate|].
  destruct Hv as [<-|Hv]; [exact E|now apply IH].
Qed.

Lemma looseIndexOf_some (l : list JsValue) (item : Tag.t) (i : nat) :
  Vue.looseIndexOf l item = Some i ->
  exists pre v post,
    l = pre ++ v :: post
    /\ Vue.looseEqual v item = true
    /\ (forall u, In u pre -> Vue.looseEqual u item = false)
    /\ Vue.splice1 i l = pre ++ post.
Proof.
  revert i. induction l as [|x l IH]; simpl; intros i H; [discriminate|].
  destruct (Vue.looseEqual x item) eqn:E.
  - injection H as <-. exists [], x, l. repeat split; auto. intros u [].
  - destruct (Vue.looseIndexOf l item) as [j|]; simpl in H; [|discriminate].
    injection H as <-.
    destruct (IH j eq_refl) as (pre & v & post & -> & Hv & Hpre & Hsp).
    exists (x :: pre), v, post. repeat split; auto.
    + intros u [<-|Hu]; auto.
    + simpl. now rewrite Hsp.
Qed.

(** X8.  Whatever the selection holds, a click on a disabled checkbox of
    the menu emits nothing, and a click on an enabled one emits exactly one
    update: the selection without its strings and either with the clicked
    item appended, when no entry is loosely equal to it, or with the first
    entry loosely equal to it taken out. *)
Theorem menu_click_emits (props : Props) (group : Group.t) (item : Tag.t) :
  (checkbox_disabled props group item = Ok true ->
   menu_click props group item = Ok [])
  /\ (checkbox_disabled props group item = Ok false ->
      exists changed out,
        menu_click props group item = Ok [Emit_update_modelValue out]
        /\ Spec.without_strings changed out
        /\ (((forall v, In v (modelValue props) ->
                        Vue.looseEqual v item = false)
             /\ changed = modelValue props ++ [JsTag item])
            \/ (exists pre v post,
                  modelValue props = pre ++ v :: post
                  /\ Vue.looseEqual v item = true
                  /\ (forall u, In u pre -> Vue.looseEqual u item = false)
                  /\ changed = pre ++ post))).
Proof.
  unfold menu_click. split; intros Hd; rewrite Hd; simpl; [reflexivity|].
  unfold checkbox_click, Vue.checkbox_checked, Vue.checkbox_change,
    selectedItems_get.
  destruct (Vue.looseIndexOf (modelValue props) item) as [i|] eqn:Ei; simpl.
  - destruct (looseIndexOf_some _ _ _ Ei) as (pre & v & post & Hl & Hv & Hpre & Hsp).
    exists (pre ++ post). eexists. split; [reflexivity|].
    rewrite Hsp. split; [apply filter_without_strings|].
    right. exists pre, v, post. auto.
  - exists (modelValue props ++ [JsTag item]). eexists.
    split; [reflexivity|]. split; [apply filter_without_strings|].
    left. split; [|reflexivity]. now apply looseIndexOf_none.
Qed.

Lemma menu_click_emits_witness :
  menu_click (Samples.props_of [JsTag Samples.P1]) Samples.priority_group
    Samples.P2 = Ok []
  /\ exists changed out,
       menu_click (Samples.props_of [JsStr "x"; JsTag Samples.P1])
         Samples.severity_group Samples.sev1
         = Ok [Emit_update_modelValue out]
       /\ Spec.without_strings changed out.
Proof.
  split.
  - apply (proj1 (menu_click_emits (Samples.props_of [JsTag Samples.P1])
                    Samples.priority_group Samples.P2)).
    reflexivity.
  - destruct (proj2 (menu_click_emits
                       (Samples.props_of [JsStr "x"; JsTag Samples.P1])
                       Samples.severity_group Samples.sev1) eq_refl)
      as (changed & out & Hclick & Hws & _).
    exists changed, out. split; assumption.
Defined.

(** ** Checked boxes stay usable *)

(** X9.  A checkbox that is drawn checked is never disabled, in an
    exclusive group or not: a selected tag can always be unchecked. *)
Theorem checked_is_enabled (props : Props) (sel : list Tag.t)
    (group : Group.t) (item : Tag.t) :
  modelValue props = map JsTag sel ->
  Vue.checkbox_checked (selectedItems_get props) item = true ->
  checkbox_disabled props group item = Ok false.
Proof.
  intros Hsel Hchecked. unfold checkbox_disabled.
  destruct (Group.isExclusive group); [|reflexivity].
  rewrite (isItemDisabled_tags props sel group item Hsel).
  assert (Hid : existsb (fun s => N.eqb (Tag.id s) (Tag.id item)) sel = true).
  { apply id_selected_existsb.
    unfold Vue.checkbox_checked, selectedItems_get in Hchecked.
    rewrite Hsel in Hchecked.
    destruct (Vue.looseIndexOf (map JsTag sel) item) as [i|] eqn:Ei;
      [|discriminate].
    destruct (looseIndexOf_found sel item i Ei)
      as (pre & s & post & -> & Hs & _).
    exists s. split; [apply in_or_app; right; now left|].
    now apply looseEqual_tag_id. }
  rewrite Hid. simpl. now rewrite andb_false_r.
Qed.

Lemma checked_is_enabled_witness :
  checkbox_disabled (Samples.props_of [JsTag Samples.P1])
    Samples.priority_group Samples.P1 = Ok false.
Proof.
  apply (checked_is_enabled (Samples.props_of [JsTag Samples.P1])
           [Samples.P1] Samples.priority_group Samples.P1); reflexivity.
Defined.

(** ** Exclusive groups *)

Lemma looseEqual_tag_type_id (a b : Tag.t) :
  Vue.looseEqual_tag a b = true -> Spec.type_id a = Spec.type_id b.
Proof.
  unfold Vue.looseEqual_tag, Vue.looseEqual_tag_type, Spec.type_id.
  rewrite !andb_true_iff. intros H.
  destruct H as [_ [[[[[H _] _] _] _] _]]. now apply N.eqb_eq.
Qed.

Lemma selected_of_type_app (l1 l2 : list Tag.t) (k : N) :
  Spec.selected_of_type (l1 ++ l2) k =
    (Spec.selected_of_type l1 k + Spec.selected_of_type l2 k)%nat.
Proof.
  unfold Spec.selected_of_type.
  now rewrite tags_of_type_app, length_app.
Qed.

Lemma selected_of_type_one (t : Tag.t) (k : N) :
  Spec.selected_of_type [t] k = if N.eqb (Spec.type_id t) k then 1%nat else 0%nat.
Proof.
  unfold Spec.selected_of_type, Spec.tags_of_type. simpl.
  now destruct (N.eqb (Spec.type_id t) k).
Qed.

Lemma selected_of_type_none (sel : list Tag.t) (g : Group.t) :
  ~ Spec.group_selected sel g ->
  Spec.selected_of_type sel (Group.id g) = 0%nat.
Proof.
  intros Hnone. unfold Spec.selected_of_type, Spec.tags_of_type.
  induction sel as [|t sel IH]; simpl; [reflexivity|].
  destruct (N.eqb (Spec.type_id t) (Group.id g)) eqn:E.
  - exfalso. apply Hnone. exists t. split; [now left|now apply N.eqb_eq].
  - apply IH. intros (s & Hs & Hg). apply Hnone. exists s. split; [now right|auto].
Qed.

(** X10.  The disabled rule keeps an exclusive group at one tag.  Take a
    selection of tags with at most one tag of an exclusive group, and a menu
    item of that group whose checkbox is enabled and which is either present
    in the selection or has an id no selected tag has.  After a click the
    emitted selection still has at most one tag of the group, and the number
    of selected tags of every other type is unchanged. *)
Theorem click_keeps_group_exclusive (props : Props) (sel : list Tag.t)
    (G : Group.t) (item : Tag.t) :
  modelValue props = map JsTag sel ->
  Group.isExclusive G = true ->
  Spec.type_id item = Group.id G ->
  checkbox_disabled props G item = Ok false ->
  Spec.present item sel \/ ~ Spec.id_selected sel item ->
  (Spec.selected_of_type sel (Group.id G) <= 1)%nat ->
  exists out,
    checkbox_click props item = [Emit_update_modelValue (map JsTag out)]
    /\ (Spec.selected_of_type out (Group.id G) <= 1)%nat
    /\ (forall k, k <> Group.id G ->
          Spec.selected_of_type out k = Spec.selected_of_type sel k).
Proof.
  intros Hsel Hex Htype Hen Hitem Hone.
  assert (Hcases : Spec.present item sel
                   \/ (~ Spec.present item sel /\ ~ Spec.id_selected sel item)).
  { destruct Hitem as [H|H]; [now left|].
    destruct (Vue.looseIndexOf (map JsTag sel) item) as [i|] eqn:Ei.
    - left. destruct (looseIndexOf_found sel item i Ei)
        as (pre & s & post & -> & Hs & _).
      exists s. split; [apply in_or_app; right; now left|exact Hs].
    - right. split; [now apply looseIndexOf_absent|exact H]. }
  destruct Hcases as [Hp|[Ha Hfresh]].
  - destruct (checkbox_click_present props sel item Hsel Hp)
      as (pre & s & post & -> & Hs & _ & Hclick).
    exists (pre ++ post). split; [exact Hclick|].
    apply looseEqual_tag_type_id in Hs. rewrite Htype in Hs.
    rewrite selected_of_type_app in *.
    change (s :: post) with ([s] ++ post) in *.
    split.
    + rewrite selected_of_type_app in Hone. lia.
    + intros k Hk. rewrite !selected_of_type_app, selected_of_type_one.
      assert (E : N.eqb (Spec.type_id s) k = false)
        by (apply N.eqb_neq; congruence).
      rewrite E. lia.
  - exists (sel ++ [item]). split; [now apply checkbox_click_absent|].
    unfold checkbox_disabled in Hen. rewrite Hex in Hen.
    rewrite (isItemDisabled_tags props sel G item Hsel) in Hen.
    injection Hen as Hen. apply andb_false_iff in Hen.
    assert (Hnone : ~ Spec.group_selected sel G).
    { destruct Hen as [Hen|Hen].
      - rewrite <- group_selected_existsb. congruence.
      - apply negb_false_iff, id_selected_existsb in Hen. contradiction. }
    rewrite !selected_of_type_app, selected_of_type_one.
    rewrite (selected_of_type_none sel G Hnone). split.
    + destruct (N.eqb (Spec.type_id item) (Group.id G)); lia.
    + intros k Hk. rewrite selected_of_type_app, selected_of_type_one.
      assert (E : N.eqb (Spec.type_id item) k = false)
        by (apply N.eqb_neq; congruence).
      rewrite E. lia.
Qed.

Lemma click_keeps_group_exclusive_witness :
  exists out,
    checkbox_click (Samples.props_of [JsTag Samples.sev1]) Samples.P2 =
      [Emit_update_modelValue (map JsTag out)]
    /\ (Spec.selected_of_type out (Group.id Samples.priority_group) <= 1)%nat
    /\ (forall k, k <> Group.id Samples.priority_group ->
          Spec.selected_of_type out k =
            Spec.selected_of_type [Samples.sev1] k).
Proof.
  apply (click_keeps_group_exclusive
           (Samples.props_of [JsTag Samples.sev1]) [Samples.sev1]
           Samples.priority_group Samples.P2).
  - reflexivity.
  - reflexivity.
  - reflexivity.
  - reflexivity.
  - right. intros (s & [<-|[]] & H). simpl in H. discriminate.
  - vm_compute. lia.
Defined.

(** X11.  Whenever a checkbox of a group is disabled, the note "Only 1 tag
    allowed for this category" is shown under the header of that group;
    this holds for any content of the selection. *)
Theorem disabled_shows_rule (props : Props) (group : Group.t) (item : Tag.t) :
  checkbox_disabled props group item = Ok true ->
  rule_desc_shown props group = Ok true.
Proof.
  unfold checkbox_disabled, rule_desc_shown, isItemDisabled.
  destruct (Group.isExclusive group); [|discriminate].
  destruct (someM _ (selectedItems_get props)) as [[|]|]; simpl;
    [reflexivity|discriminate|discriminate].
Qed.

Lemma disabled_shows_rule_witness :
  rule_desc_shown (Samples.props_of [JsTag Samples.P1]) Samples.priority_group
    = Ok true.
Proof.
  apply (disabled_shows_rule (Samples.props_of [JsTag Samples.P1])
           Samples.priority_group Samples.P2).
  reflexivity.
Defined.

(** ** copyTags on any selection *)

Lemma mapM_throws {A B : Type} (f : A -> Res B) (l : list A) :
  mapM f l = TypeError <-> exists x, In x l /\ f x = TypeError.
Proof.
  induction l as [|x l IH]; simpl.
  - split; [discriminate|]. intros (x & [] & _).
  - destruct (f x) as [y|] eqn:E; simpl.
    + destruct (mapM f l) as [rest|] eqn:El; simpl.
      * split; [discriminate|]. intros (z & [<-|Hz] & Hf); [congruence|].
        destruct IH as [_ IH]. discriminate IH. now exists z.
      * split; [|reflexivity]. intros _.
        destruct IH as [IH _]. destruct (IH eq_refl) as (z & Hz & Hf).
        exists z. auto.
    + split; [|reflexivity]. intros _. exists x. auto.
Qed.

Lemma copy_entry_throws (v : JsValue) :
  (type_name <- prop_tag_type_name v ;;
   n <- prop_name v ;;
   Ok (type_name ++ "/" ++ string_of_name n)%string) = TypeError
  <-> ~ Spec.is_tag v.
Proof.
  unfold Spec.is_tag.
  destruct v as [| |b|n|s|t]; simpl; split; intros H;
    try reflexivity; try discriminate;
    try (intros [u Hu]; discriminate).
  exfalso. apply H. now exists t.
Qed.

Lemma all_tags (l : list JsValue) :
  (forall v, In v l -> Spec.is_tag v) -> exists sel, l = map JsTag sel.
Proof.
  induction l as [|v l IH]; intros H.
  - now exists [].
  - destruct (H v (or_introl eq_refl)) as [t ->].
    destruct IH as [sel ->]; [intros w Hw; apply H; now right|].
    now exists (t :: sel).
Qed.

(** X12.  [copyTags] throws exactly when some entry of the selection is not
    a tag object.  When it does not throw, the selection is a list of tags,
    one text is written to the clipboard, nothing is emitted, and the only
    change of state is the notification. *)
Theorem copyTags_any_selection (props : Props) (s : State) :
  (copyTags props s = TypeError
   <-> exists v, In v (modelValue props) /\ ~ Spec.is_tag v)
  /\ (forall s' effects,
        copyTags props s = Ok (s', effects) ->
        exists sel,
          modelValue props = map JsTag sel
          /\ s' = with_snackbar true s
          /\ effects = [Clipboard_writeText (Spec.clipboard_text sel)]).
Proof.
  assert (Hthrow : copyTags props s = TypeError
                   <-> exists v, In v (modelValue props) /\ ~ Spec.is_tag v).
  { unfold copyTags, selectedItems_get.
    destruct (mapM _ (modelValue props)) as [tags|] eqn:E; simpl.
    - split; [discriminate|]. intros (v & Hv & Hn). exfalso.
      apply copy_entry_throws in Hn.
      assert (Ht : mapM (fun item =>
                           type_name <- prop_tag_type_name item ;;
                           n <- prop_name item ;;
                           Ok (type_name ++ "/" ++ string_of_name n)%string)
                     (modelValue props) = TypeError).
      { apply mapM_throws. now exists v. }
      congruence.
    - split; [|reflexivity]. intros _. apply mapM_throws in E.
      destruct E as (v & Hv & Hf). exists v. split; [exact Hv|].
      now apply copy_entry_throws. }
  split; [exact Hthrow|].
  intros s' effects Hok.
  destruct (all_tags (modelValue props)) as [sel Hsel].
  { intros v Hv. destruct v as [| |b|n|x|t]; try (now exists t);
      exfalso;
      assert (Ht : copyTags props s = TypeError)
        by (apply Hthrow; eexists; split; [exact Hv|];
            intros [u Hu]; discriminate);
      congruence. }
  exists sel. split; [exact Hsel|].
  rewrite (copyTags_tags props sel s Hsel) in Hok.
  injection Hok as <- <-. auto.
Qed.

(** ** isItemDisabled on a malformed selection *)

Lemma group_scan_throws (group : Group.t) (l : list JsValue) :
  (exists v, In v l /\ ~ Spec.is_tag v) ->
  (forall t, In (JsTag t) l -> Spec.type_id t <> Group.id group) ->
  someM (fun selectedItem =>
           i <- prop_tag_type_id selectedItem ;;
           Ok (N.eqb i (Group.id group))) l = TypeError.
Proof.
  induction l as [|x l IH]; intros (v & Hv & Hn) Hnone.
  - destruct Hv.
  - simpl. destruct x as [| |b|n|s|t]; try reflexivity.
    simpl.
    assert (E : N.eqb (TagType.id (Tag.tag_type t)) (Group.id group) = false).
    { apply N.eqb_neq. apply (Hnone t). now left. }
    rewrite E. apply IH.
    + destruct Hv as [<-|Hv]; [|now exists v].
      exfalso. apply Hn. now exists t.
    + intros u Hu. apply Hnone. now right.
Qed.

(** X13.  If the selection holds an entry that is not a tag object and no
    selected tag belongs to the group, evaluating the [disabled] attribute
    of any checkbox of an exclusive group throws. *)
Theorem malformed_selection_breaks_exclusive_group
    (props : Props) (group : Group.t) (item : Tag.t) :
  Group.isExclusive group = true ->
  (exists v, In v (modelValue props) /\ ~ Spec.is_tag v) ->
  (forall t, In (JsTag t) (modelValue props) ->
             Spec.type_id t <> Group.id group) ->
  checkbox_disabled props group item = TypeError.
Proof.
  intros Hex Hbad Hnone. unfold checkbox_disabled, isItemDisabled.
  rewrite Hex. unfold selectedItems_get.
  now rewrite (group_scan_throws group (modelValue props) Hbad Hnone).
Qed.

Lemma malformed_selection_breaks_exclusive_group_witness :
  checkbox_disabled (Samples.props_of [JsTag Samples.sev1; JsStr "P1"])
    Samples.priority_group Samples.P1 = TypeError.
Proof.
  apply malformed_selection_breaks_exclusive_group.
  - reflexivity.
  - exists (JsStr "P1"). split; [simpl; auto|]. intros [t H]. discriminate.
  - intros t [H|[H|[]]]; [|discriminate]. injection H as <-. discriminate.
Defined.

(** ** More on the search *)

Lemma string_app_assoc (a b c : string) :
  ((a ++ b) ++ c = a ++ b ++ c)%string.
Proof. induction a as [|x a IH]; simpl; [reflexivity|]. now rewrite IH. Qed.

Lemma includes_trans (a b c : string) :
  JsString.includes a b = true ->
  JsString.includes b c = true ->
  JsString.includes a c = true.
Proof.
  rewrite !includes_app. intros (p1 & q1 & ->) (p2 & q2 & ->).
  exists (p1 ++ p2)%string, (q2 ++ q1)%string.
  now rewrite !string_app_assoc.
Qed.

Lemma includes_empty (a : string) : JsString.includes a "" = true.
Proof. destruct a; reflexivity. Qed.

Lemma filter_all {A : Type} (p : A -> bool) (l : list A) :
  (forall x, In x l -> p x = true) -> filter p l = l.
Proof.
  induction l as [|x l IH]; intros H; simpl; [reflexivity|].
  rewrite (H x) by now left. rewrite IH; [reflexivity|].
  intros y Hy. apply H. now right.
Qed.

Lemma filter_filter_implied {A : Type} (p q : A -> bool) (l : list A) :
  (forall x, p x = true -> q x = true) ->
  filter p (filter q l) = filter p l.
Proof.
  intros Himp. induction l as [|x l IH]; simpl; [reflexivity|].
  destruct (q x) eqn:Eq; simpl.
  - now rewrite IH.
  - destruct (p x) eqn:Ep; [|exact IH].
    apply Himp in Ep. congruence.
Qed.

Lemma filter_over_groups (keep : Tag.t -> bool)
    (pick : Group.t -> list Tag.t) (gs : list Group.t) :
  flat_map (fun g => filter keep (pick g)) gs = filter keep (flat_map pick gs).
Proof.
  induction gs as [|g gs IH]; simpl; [reflexivity|].
  now rewrite filter_app, IH.
Qed.

(** X14.  A search with the empty text lists every menu item of every
    group, in group order. *)
Theorem search_empty_text_keeps_all (s : State) :
  filteredMenuItems (search_input "" s) =
    flat_map Group.menuItems (groups s).
Proof.
  rewrite search_input_flat. simpl. apply flat_map_agree.
  intros g _. apply filter_all. intros item _.
  unfold name_includes. simpl. apply includes_empty.
Qed.

(** X15.  Typing more narrows the result: when the new text contains the
    old one, without regard to case, and both are ASCII, the new filtered
    list is the old filtered list with the items that do not match the new
    text taken out. *)
Theorem search_refines (shorter longer : string) (s : State) :
  Spec.ascii_text shorter ->
  Spec.ascii_text longer ->
  Spec.contains_ignoring_case longer shorter ->
  filteredMenuItems (search_input longer s) =
    filter (name_includes longer) (filteredMenuItems (search_input shorter s)).
Proof.
  intros Hshort Hlong Hsub.
  apply (contains_ignoring_case_includes longer shorter Hlong Hshort) in Hsub.
  rewrite !search_input_flat. simpl. rewrite <- filter_over_groups.
  apply flat_map_agree. intros g _. symmetry.
  apply filter_filter_implied. intros item Hitem.
  unfold name_includes in *. now apply (includes_trans _ _ _ Hitem).
Qed.

Lemma search_refines_witness :
  filteredMenuItems
    (search_input "ox" (Samples.state_of [Samples.letters_group])) =
  filter (name_includes "ox")
    (filteredMenuItems
       (search_input "X" (Samples.state_of [Samples.letters_group]))).
Proof.
  apply (search_refines "X" "ox" (Samples.state_of [Samples.letters_group])).
  - simpl. split; [apply Nat.ltb_lt; reflexivity|exact I].
  - simpl. repeat split; apply Nat.ltb_lt; reflexivity.
  - exists "o", "x", "". split; [reflexivity|].
    constructor; [|constructor].
    right. right.
    split; [split; apply Nat.leb_le; reflexivity|reflexivity].
Defined.

(** X16.  The result of a search does not depend on the case of the text:
    two texts that differ only in the case of their letters give the same
    filtered list. *)
Theorem search_ignores_case_of_text (text text' : string) (s : State) :
  Spec.same_text text text' ->
  filteredMenuItems (search_input text s) =
    filteredMenuItems (search_input text' s).
Proof.
  intros Hsame. apply toLowerCase_same_text in Hsame.
  rewrite !search_input_flat. simpl.
  unfold name_includes. now rewrite Hsame.
Qed.

Lemma search_ignores_case_of_text_witness :
  filteredMenuItems
    (search_input "BO" (Samples.state_of [Samples.letters_group])) =
  filteredMenuItems
    (search_input "bo" (Samples.state_of [Samples.letters_group])).
Proof.
  apply search_ignores_case_of_text.
  repeat constructor;
    right; left;
    (split; [split; apply Nat.leb_le; reflexivity|reflexivity]).
Defined.

(** X17.  A search starts from scratch: the filtered list depends on the
    groups and the new text only, a search after a search gives the state a
    single search gives, and a search changes no ref but [searchQuery] and
    [filteredMenuItems]. *)
Theorem search_replaces_previous (text text' : string) (s s' : State) :
  (groups s = groups s' ->
   filteredMenuItems (search_input text s) =
     filteredMenuItems (search_input text s'))
  /\ search_input text (search_input text' s) = search_input text s
  /\ search_input text s =
       mkState (menu s) (dummyText s) (items s) (total s) (more s) (groups s)
         text (filteredMenuItems (search_input text s))
         (isDropdownOpen s) (loading s) (snackbar s).
Proof.
  rewrite !search_input_flat. split; [|split; reflexivity].
  simpl. now intros ->.
Qed.

Lemma search_replaces_previous_witness :
  filteredMenuItems
    (search_input "x" (Samples.state_of [Samples.letters_group])) =
  filteredMenuItems
    (search_input "x"
       (toggleMenu (search_input "lo" (Samples.state_of [Samples.letters_group])))).
Proof.
  apply (proj1 (search_replaces_previous "x" "x"
                  (Samples.state_of [Samples.letters_group])
                  (toggleMenu
                     (search_input "lo"
                        (Samples.state_of [Samples.letters_group]))))).
  reflexivity.
Defined.

(** ** What is visible after a search *)

Lemma includes_tag_In (l : list Tag.t) (item : Tag.t) :
  includes_tag l item = true <-> In item l.
Proof.
  unfold includes_tag. rewrite existsb_exists. split.
  - intros (x & Hx & H). destruct (tag_eq_dec x item); [now subst|discriminate].
  - intros H. exists item. split; [exact H|].
    destruct (tag_eq_dec item item); [reflexivity|contradiction].
Qed.

Lemma in_search_result (text : string) (s : State) (item : Tag.t) :
  In item (filteredMenuItems (search_input text s))
  <-> (exists g, In g (groups s) /\ In item (Group.menuItems g))
      /\ name_includes text item = true.
Proof.
  rewrite search_input_flat. simpl. rewrite in_flat_map. split.
  - intros (g & Hg & Hin). apply filter_In in Hin. destruct Hin as [Hin Hk].
    split; [now exists g|exact Hk].
  - intros [(g & Hg & Hin) Hk]. exists g. split; [exact Hg|].
    now apply filter_In.
Qed.

Lemma length_zero_string (a : string) :
  Nat.eqb (String.length a) 0 = true <-> a = EmptyString.
Proof. destruct a; simpl; split; intros H; try reflexivity; discriminate. Qed.

(** X18.  After a search with an ASCII text over groups whose menu items
    have ASCII names, a menu item of a group of the list is on screen (its
    group is rendered and the item is rendered in it) exactly when its name
    contains the text, without regard to case. *)
Theorem shown_after_search (text : string) (s : State) (g : Group.t)
    (item : Tag.t) :
  Spec.ascii_text text ->
  Spec.ascii_names (groups s) ->
  In g (groups s) ->
  In item (Group.menuItems g) ->
  (group_shown (search_input text s) g
   && item_shown (search_input text s) item = true
   <-> Spec.contains_ignoring_case (Tag.name item) text).
Proof.
  intros Htext Hnames Hg Hitem.
  rewrite <- (name_includes_iff text item Htext (Hnames g item Hg Hitem)).
  unfold group_shown, item_shown.
  rewrite andb_true_iff, !orb_true_iff, includes_tag_In, in_search_result.
  rewrite existsb_exists.
  replace (searchQuery (search_input text s)) with text
    by now rewrite search_input_flat.
  rewrite length_zero_string. split.
  - intros [[->|(f & Hf & Hfg)] Hshown].
    + unfold name_includes. simpl. apply includes_empty.
    + destruct Hshown as [Hlen|[_ Hk]]; [|exact Hk].
      destruct (filteredMenuItems (search_input text s)); [destruct Hf|].
      discriminate.
  - intros Hk.
    assert (Hin : In item (filteredMenuItems (search_input text s))).
    { apply in_search_result. split; [now exists g|exact Hk]. }
    split.
    + right. exists item. split; [exact Hin|]. now apply includes_tag_In.
    + right. split; [now exists g|exact Hk].
Qed.

Lemma shown_after_search_witness :
  group_shown (search_input "x" (Samples.state_of [Samples.letters_group]))
    Samples.letters_group
  && item_shown (search_input "x" (Samples.state_of [Samples.letters_group]))
       Samples.Box = true.
Proof.
  apply (shown_after_search "x" (Samples.state_of [Samples.letters_group])
           Samples.letters_group Samples.Box).
  - simpl. split; [apply Nat.ltb_lt; reflexivity|exact I].
  - exact letters_names_ascii.
  - simpl. auto.
  - simpl. auto.
  - exists "Bo", "x", "". split; [reflexivity|].
    constructor; [now left|constructor].
Defined.

(** X19.  After a search with an ASCII text over groups whose menu items
    have ASCII names, the message that nothing was found is shown exactly
    when the text is not empty and no menu item of any group contains it,
    without regard to case; no group is rendered then. *)
Theorem empty_search_message (text : string) (s : State) :
  Spec.ascii_text text ->
  Spec.ascii_names (groups s) ->
  (empty_search_shown (search_input text s) = true
   <-> text <> EmptyString
       /\ forall g item, In g (groups s) -> In item (Group.menuItems g) ->
            ~ Spec.contains_ignoring_case (Tag.name item) text)
  /\ (empty_search_shown (search_input text s) = true ->
      forall g, group_shown (search_input text s) g = false).
Proof.
  intros Htext Hnames.
  assert (Hq : searchQuery (search_input text s) = text)
    by now rewrite search_input_flat.
  assert (Hnil : Nat.eqb (List.length (filteredMenuItems (search_input text s))) 0
                 = true
                 <-> forall g item, In g (groups s) ->
                       In item (Group.menuItems g) ->
                       ~ Spec.contains_ignoring_case (Tag.name item) text).
  { split.
    - intros Hlen g item Hg Hitem Hk.
      apply (name_includes_iff text item Htext (Hnames g item Hg Hitem)) in Hk.
      assert (Hin : In item (filteredMenuItems (search_input text s))).
      { apply in_search_result. split; [now exists g|exact Hk]. }
      destruct (filteredMenuItems (search_input text s)); [destruct Hin|].
      discriminate.
    - intros Hnone.
      destruct (filteredMenuItems (search_input text s)) as [|f l] eqn:E;
        [reflexivity|]. exfalso.
      assert (Hin : In f (filteredMenuItems (search_input text s)))
        by (rewrite E; now left).
      apply in_search_result in Hin. destruct Hin as [(g & Hg & Hf) Hk].
      apply (Hnone g f Hg Hf).
      now apply (name_includes_iff text f Htext (Hnames g f Hg Hf)). }
  unfold empty_search_shown, group_shown. rewrite Hq. split.
  - rewrite andb_true_iff, negb_true_iff, Hnil.
    rewrite <- not_true_iff_false, length_zero_string. tauto.
  - rewrite andb_true_iff, negb_true_iff. intros [Hlen Hne] g.
    rewrite Hne. simpl.
    destruct (filteredMenuItems (search_input text s)); [reflexivity|].
    discriminate.
Qed.

Lemma empty_search_message_witness :
  empty_search_shown
    (search_input "lo" (Samples.state_of [Samples.letters_group])) = true
  /\ group_shown
       (search_input "lo" (Samples.state_of [Samples.letters_group]))
       Samples.letters_group = false.
Proof.
  destruct (empty_search_message "lo"
              (Samples.state_of [Samples.letters_group])) as [_ H].
  - simpl. repeat split; apply Nat.ltb_lt; reflexivity.
  - exact letters_names_ascii.
  - split; [reflexivity|]. apply H. reflexivity.
Defined.

(** ** The request *)

(** X20.  The request of [fetchData] is a function of the [project] and
    [model] props alone: the selection, the search text and the rest of the
    state have no influence on it. *)
Theorem fetchData_depends_on_project_and_model
    (props props' : Props) (s s' : State) :
  project props = project props' ->
  model props = model props' ->
  snd (fetchData props s) = snd (fetchData props' s').
Proof.
  intros Hp Hm. unfold fetchData, fetchData_options. simpl.
  now rewrite Hp, Hm.
Qed.

Lemma fetchData_depends_on_project_and_model_witness :
  snd (fetchData (Samples.props_of [JsTag Samples.P1])
         (with_searchQuery "priority/high" initial))
  = snd (fetchData (Samples.props_of []) initial).
Proof.
  apply fetchData_depends_on_project_and_model; reflexivity.
Defined.

(** X21.  Edge values of the props collapse: an empty array of projects
    sends the same request as no project, an array of one project the same
    as that project alone, and the empty string as [model] the same as no
    model. *)
Theorem fetchData_edge_props (sel : list JsValue) (p : Project.t)
    (m : option string) (n : option Z) (s : State) :
  snd (fetchData (mkProps sel (ProjectArray []) m n) s) =
    snd (fetchData (mkProps sel ProjectNull m n) s)
  /\ snd (fetchData (mkProps sel (ProjectArray [p]) m n) s) =
       snd (fetchData (mkProps sel (ProjectObject p) m n) s)
  /\ snd (fetchData (mkProps sel (ProjectObject p) (Some "") n) s) =
       snd (fetchData (mkProps sel (ProjectObject p) None n) s).
Proof. repeat split. Qed.

(** X22.  Every request asks for discoverable tags of discoverable tag
    types only: the tag filter is the single condition
    [Tag.discoverable == "true"], and the tag-type filter is not empty and
    made of conditions [TagType.discoverable_... == "true"]; with a
    non-empty [model] it is the one condition for that model. *)
Theorem fetchData_asks_for_discoverable (props : Props) (s : State) :
  exists options,
    snd (fetchData props s) = [TagApi_getAll options]
    /\ tagFilter (filters options) =
         [Filter.mk "Tag" "discoverable" "==" "true"]
    /\ tagTypeFilter (filters options) <> []
    /\ Forall (fun f => Filter.model f = "TagType"
                        /\ String.prefix "discoverable_" (Filter.field f) = true
                        /\ Filter.op f = "=="
                        /\ Filter.value f = "true")
         (tagTypeFilter (filters options))
    /\ (forall m, model props = Some m -> m <> EmptyString ->
          tagTypeFilter (filters options) =
            [Filter.mk "TagType" ("discoverable_" ++ m) "==" "true"]).
Proof.
  unfold fetchData, fetchData_options. simpl.
  destruct (model props) as [m|] eqn:Em.
  - destruct m as [|c m]; simpl; eexists; (split; [reflexivity|]); simpl;
      (split; [reflexivity|]); (split; [discriminate|]); split.
    + repeat constructor.
    + intros m' H Hne. injection H as <-. contradiction.
    + repeat constructor.
    + intros m' H _. injection H as <-. reflexivity.
  - eexists; (split; [reflexivity|]); simpl;
      (split; [reflexivity|]); (split; [discriminate|]); split.
    + repeat constructor.
    + intros m' H. discriminate.
Qed.

(** ** The response *)

(** X23.  After a response the menu items of the groups are the received
    items, each once; [loading] is off; [more] is set exactly when fewer
    items came than the total announces; the search text and the filtered
    list are left as they were.  A later response overrides an earlier one
    completely. *)
Theorem on_response_installs (its its' : list Tag.t) (n n' : N) (s : State) :
  Permutation (flat_map Group.menuItems (groups (on_response its n s))) its
  /\ items (on_response its n s) = its
  /\ loading (on_response its n s) = false
  /\ (more (on_response its n s) = true
      <-> (N.of_nat (List.length its) < n)%N)
  /\ searchQuery (on_response its n s) = searchQuery s
  /\ filteredMenuItems (on_response its n s) = filteredMenuItems s
  /\ on_response its n (on_response its' n' s) = on_response its n s.
Proof.
  split; [apply convertData_items_perm|].
  repeat split; simpl; try apply N.ltb_lt; auto.
Qed.

(** ** The menu *)

(** X24.  Opening and closing the menu: toggling twice restores the state,
    closing is idempotent and wins over a toggle made before it, and
    toggling after a close opens the menu. *)
Theorem menu_toggles (s : State) :
  toggleMenu (toggleMenu s) = s
  /\ closeMenu (closeMenu s) = closeMenu s
  /\ closeMenu (toggleMenu s) = closeMenu s
  /\ menu (toggleMenu (closeMenu s)) = true.
Proof.
  destruct s as [m d i t mo g q f o l sn].
  unfold toggleMenu, closeMenu, with_menu. simpl.
  rewrite negb_involutive. repeat split.
Qed.

(** ** Swapping the tag of an exclusive group *)

Lemma group_selected_counts (sel : list Tag.t) (g : Group.t) :
  Spec.group_selected sel g ->
  (1 <= Spec.selected_of_type sel (Group.id g))%nat.
Proof.
  intros (t & Hin & Hg). unfold Spec.selected_of_type.
  assert (H : In t (Spec.tags_of_type sel (Group.id g))).
  { apply filter_In. split; [exact Hin|]. now apply N.eqb_eq. }
  destruct (Spec.tags_of_type sel (Group.id g)); [destruct H|simpl; lia].
Qed.

(** X25.  To swap the tag of an exclusive group the selected one is
    unchecked first: if a tag is the only selected tag of an exclusive
    group and the selected ids are pairwise distinct, then after unchecking
    it every checkbox of the group is enabled again. *)
Theorem uncheck_frees_exclusive_group (props : Props)
    (pre post : list Tag.t) (S : Tag.t) (G : Group.t) :
  modelValue props = map JsTag (pre ++ S :: post) ->
  NoDup (map Tag.id (pre ++ S :: post)) ->
  Spec.type_id S = Group.id G ->
  Spec.selected_of_type (pre ++ S :: post) (Group.id G) = 1%nat ->
  checkbox_click props S =
    [Emit_update_modelValue (map JsTag (pre ++ post))]
  /\ forall T,
       checkbox_disabled (Spec.adopt (map JsTag (pre ++ post)) props) G T
         = Ok false.
Proof.
  intros Hsel Hnd HS Hone. split; [now apply checkbox_click_selected|].
  intros T. unfold checkbox_disabled.
  destruct (Group.isExclusive G); [|reflexivity].
  rewrite (isItemDisabled_tags (Spec.adopt _ props) (pre ++ post) G T eq_refl).
  assert (Hnone : existsb
                    (fun s => N.eqb (TagType.id (Tag.tag_type s)) (Group.id G))
                    (pre ++ post) = false).
  { apply not_true_is_false. rewrite group_selected_existsb. intros Hsome.
    apply group_selected_counts in Hsome.
    change (S :: post) with ([S] ++ post) in Hone.
    rewrite !selected_of_type_app, selected_of_type_one in *.
    apply N.eqb_eq in HS. rewrite HS in Hone. lia. }
  now rewrite Hnone.
Qed.

Lemma uncheck_frees_exclusive_group_witness :
  checkbox_disabled
    (Spec.adopt [JsTag Samples.sev1]
       (Samples.props_of [JsTag Samples.P1; JsTag Samples.sev1]))
    Samples.priority_group Samples.P2 = Ok false.
Proof.
  destruct (uncheck_frees_exclusive_group
              (Samples.props_of [JsTag Samples.P1; JsTag Samples.sev1])
              [] [Samples.sev1] Samples.P1 Samples.priority_group eq_refl)
    as [_ H].
  - simpl. repeat constructor; simpl; intros H;
      repeat (destruct H as [H|H]; try discriminate); exact H.
  - reflexivity.
  - reflexivity.
  - apply H.
Defined.

(** ** The setter on what it emitted *)

Lemma filter_strings_again (value : list JsValue) :
  let drop := fun v => if String.eqb (typeof v) "string" then false else true in
  filter drop (filter drop value) = filter drop value.
Proof.
  intros drop. induction value as [|v l IH]; simpl; [reflexivity|].
  destruct (drop v) eqn:E; simpl; rewrite ?E; now rewrite IH.
Qed.

(** X26.  What the setter emits is a fixed point of the setter: assigning
    an emitted selection back emits it unchanged, and an array without
    strings is emitted as it is. *)
Theorem setter_is_stable (value : list JsValue) :
  (exists tags,
      selectedItems_set value = [Emit_update_modelValue tags]
      /\ selectedItems_set tags = [Emit_update_modelValue tags])
  /\ (Forall Spec.not_string value ->
      selectedItems_set value = [Emit_update_modelValue value]).
Proof.
  split.
  - eexists. split; [reflexivity|]. unfold selectedItems_set.
    now rewrite (filter_strings_again value).
  - intros Hall. unfold selectedItems_set. f_equal. f_equal.
    apply filter_all. intros v Hv. rewrite Forall_forall in Hall.
    specialize (Hall v Hv).
    destruct (String.eqb (typeof v) "string") eqn:E; [|reflexivity].
    apply typeof_string in E. destruct E as [x ->]. now contradiction (Hall x).
Qed.

Lemma setter_is_stable_witness :
  selectedItems_set [JsTag Samples.P1; JsNull] =
    [Emit_update_modelValue [JsTag Samples.P1; JsNull]].
Proof.
  apply (proj2 (setter_is_stable [JsTag Samples.P1; JsNull])).
  repeat constructor; intros x H; discriminate.
Defined.
